(** * NexusAI orchestrator: plan validation and the native step runner

    A shallow embedding of [brain/orchestrator]: the pydantic models of
    [schema.py], the tool registry of [tools.py], the native runner of
    [custom_runner.py] and the public entry point of [executor.py],
    followed by the properties of the orchestrator specification that
    are settled against them.

    Python values are an inductive type, dictionaries whose order is
    never observed are [gmap]s, dictionaries that are iterated
    (the step context, the registry) are association lists in insertion
    order.  Tool functions are external: they are functions of an
    abstract world state [W], and each invocation reports what it
    returned or raised and how long it ran.  A tool call comes to an
    end, with a value or with an exception, and a progress callback
    returns normally. *)

From Stdlib Require Import ZArith QArith String Ascii List DecimalString Sorted.
From stdpp Require Import gmap strings list.

Open Scope Z_scope.
Open Scope string_scope.

(** ** Python values *)

Module Py.

(** What a plan, a tool argument or a tool output can be.  A float is
    given by its value as a rational number, which every finite double
    has. *)
#[warnings="-register-all"]
Inductive value : Type :=
  | VNone
  | VBool (b : bool)
  | VInt (z : Z)
  | VFloat (q : Q)
  | VStr (s : string)
  | VList (l : list value)
  | VDict (d : gmap string value).

(** [str(n)] for an integer. *)
Definition str_of_int (z : Z) : string := NilZero.string_of_int (Z.to_int z).

(** [repr(s)] for a string without quotes, backslashes or control
    characters; tool names are of that kind. *)
Definition repr_str (s : string) : string := "'" ++ s ++ "'".

Fixpoint join (sep : string) (l : list string) : string :=
  match l with
  | [] => ""
  | [x] => x
  | x :: rest => x ++ sep ++ join sep rest
  end.

(** [repr] of a list of strings, as in [f"{list(d.keys())}"]. *)
Definition repr_str_list (l : list string) : string :=
  "[" ++ join ", " (map repr_str l) ++ "]".

(** [isinstance(value, str) and value.startswith("<")] *)
Definition looks_like_markup (v : value) : bool :=
  match v with
  | VStr s => String.prefix "<" s
  | _ => false
  end.

(** Exceptions, by class; every class is a subclass of [Exception].
    [FutureTimeoutError] is [concurrent.futures.TimeoutError]; its [str]
    is empty. *)
Inductive exn : Type :=
  | ValueError (m : string)
  | RuntimeError (m : string)
  | ImportError (m : string)
  | FutureTimeoutError
  | OtherException (m : string).

Definition str_exn (e : exn) : string :=
  match e with
  | ValueError m | RuntimeError m | ImportError m | OtherException m => m
  | FutureTimeoutError => ""
  end.

(** A [dict] whose iteration order matters: keys in insertion order,
    assignment to an existing key keeps its position. *)
Section OrderedDict.
Context {V : Type}.

Fixpoint dict_get (k : string) (d : list (string * V)) : option V :=
  match d with
  | [] => None
  | (k', v) :: rest => if String.eqb k k' then Some v else dict_get k rest
  end.

Fixpoint dict_set (k : string) (v : V) (d : list (string * V)) : list (string * V) :=
  match d with
  | [] => [(k, v)]
  | (k', v') :: rest =>
      if String.eqb k k' then (k, v) :: rest else (k', v') :: dict_set k v rest
  end.

Definition dict_keys (d : list (string * V)) : list string := map fst d.
End OrderedDict.

End Py.

Import Py.

(** ** schema.py *)

Module Schema.

(** One entry of a pydantic [ValidationError]: the field and what is
    wrong with it. *)
Record FieldError : Type := { err_loc : string; err_msg : string }.

(** The part of pydantic the models rely on: how a raw value is coerced
    to a declared field type, and how a [ValidationError] prints.  The
    library is not part of the repository, so its coercions are taken as
    given; all that is asked is that a value already of the declared
    type is accepted unchanged (and an [int] where a [float] is
    declared). *)
Class Pydantic : Type := {
  int_validator : value -> option Z;
  float_validator : value -> option Q;
  bool_validator : value -> option bool;
  str_validator : value -> option string;
  dict_validator : value -> option (gmap string value);
  display_errors : list FieldError -> string;
  int_validator_int : forall z, int_validator (VInt z) = Some z;
  float_validator_float : forall q, float_validator (VFloat q) = Some q;
  float_validator_int : forall z, float_validator (VInt z) = Some (inject_Z z);
  bool_validator_bool : forall b, bool_validator (VBool b) = Some b;
  str_validator_str : forall s, str_validator (VStr s) = Some s;
  dict_validator_dict : forall d, dict_validator (VDict d) = Some d
}.

(** Coercion that accepts exactly the declared types; used to run the
    models on concrete plans. *)
Definition strict_display_errors (errs : list FieldError) : string :=
  str_of_int (Z.of_nat (length errs)) ++ " validation error for PlanStep"
    ++ String.concat "" (map (fun e => String (ascii_of_nat 10) (err_loc e)
                                ++ String (ascii_of_nat 10) ("  " ++ err_msg e)) errs).

#[export] Instance strict_pydantic : Pydantic := {|
  int_validator v := match v with VInt z => Some z | _ => None end;
  float_validator v :=
    match v with VFloat q => Some q | VInt z => Some (inject_Z z) | _ => None end;
  bool_validator v := match v with VBool b => Some b | _ => None end;
  str_validator v := match v with VStr s => Some s | _ => None end;
  dict_validator v := match v with VDict d => Some d | _ => None end;
  display_errors := strict_display_errors;
  int_validator_int _ := eq_refl;
  float_validator_float _ := eq_refl;
  float_validator_int _ := eq_refl;
  bool_validator_bool _ := eq_refl;
  str_validator_str _ := eq_refl;
  dict_validator_dict _ := eq_refl
|}.

(** [PlanStep]: a validated plan step. *)
Record PlanStep : Type := {
  step_id : Z;
  tool : string;
  args : gmap string value;
  reason : option string;
  confidence : option Q;
  retry : option Z;
  requires_human : option bool
}.

(** [Literal["search", "open", "extract", "screenshot", "download"]] *)
Definition TOOL_NAMES : list string :=
  ["search"; "open"; "extract"; "screenshot"; "download"].

(** The [required_args] table of [validate_tool_args]. *)
Definition required_args : list (string * list string) :=
  [ ("search", ["query"]);
    ("open", ["url"]);
    ("extract", ["selector"]);
    ("screenshot", ["url"]);
    ("download", ["url"; "filename"]) ].

(** The loop of [validate_tool_args] over the required names: the first
    one that is absent (and is not ['html']) raises. *)
Fixpoint check_required (tool : string) (required : list string)
    (v : gmap string value) : option string :=
  match required with
  | [] => None
  | arg :: rest =>
      match v !! arg with
      | None =>
          if negb (String.eqb arg "html")
          then Some ("Missing required argument '" ++ arg ++ "' for tool '" ++ tool ++ "'")
          else check_required tool rest v
      | Some _ => check_required tool rest v
      end
  end.

(** [validate_tool_args(cls, v, values)]: [values_tool] is
    [values.get('tool')], absent when the tool field did not validate.
    [inl] is the message of the [ValueError] raised. *)
Definition validate_tool_args (v : gmap string value) (values_tool : option string)
    : string + gmap string value :=
  match values_tool with
  | None => inr v
  | Some tool =>
      match dict_get tool required_args with
      | Some required =>
          match check_required tool required v with
          | Some m => inl m
          | None => inr v
          end
      | None => inr v
      end
  end.

Section Validation.
Context {pyd : Pydantic}.

(** Per-field validation; [inl] carries the error message. *)
Definition validate_step_id (raw : gmap string value) : string + Z :=
  match raw !! "step_id" with
  | None => inl "field required"
  | Some v =>
      match int_validator v with
      | Some z => inr z
      | None => inl "value is not a valid integer"
      end
  end.

Definition validate_tool (raw : gmap string value) : string + string :=
  match raw !! "tool" with
  | None => inl "field required"
  | Some (VStr s) =>
      if bool_decide (s ∈ TOOL_NAMES) then inr s
      else inl "unexpected value; permitted: 'search', 'open', 'extract', 'screenshot', 'download'"
  | Some _ => inl "unexpected value; permitted: 'search', 'open', 'extract', 'screenshot', 'download'"
  end.

Definition validate_args (raw : gmap string value) (values_tool : option string)
    : string + gmap string value :=
  match raw !! "args" with
  | None => inl "field required"
  | Some v =>
      match dict_validator v with
      | Some d => validate_tool_args d values_tool
      | None => inl "value is not a valid dict"
      end
  end.

Definition validate_reason (raw : gmap string value) : string + option string :=
  match raw !! "reason" with
  | None | Some VNone => inr None
  | Some v =>
      match str_validator v with
      | Some s => inr (Some s)
      | None => inl "str type expected"
      end
  end.

(** [Optional[float] = Field(None, ge=0.0, le=1.0)] *)
Definition validate_confidence (raw : gmap string value) : string + option Q :=
  match raw !! "confidence" with
  | None | Some VNone => inr None
  | Some v =>
      match float_validator v with
      | Some q =>
          if negb (Qle_bool 0 q)
          then inl "ensure this value is greater than or equal to 0.0"
          else if negb (Qle_bool q 1)
          then inl "ensure this value is less than or equal to 1.0"
          else inr (Some q)
      | None => inl "value is not a valid float"
      end
  end.

(** [Optional[int] = Field(0, ge=0)] *)
Definition validate_retry (raw : gmap string value) : string + option Z :=
  match raw !! "retry" with
  | None => inr (Some 0)
  | Some VNone => inr None
  | Some v =>
      match int_validator v with
      | Some z =>
          if (0 <=? z)%Z then inr (Some z)
          else inl "ensure this value is greater than or equal to 0"
      | None => inl "value is not a valid integer"
      end
  end.

(** [Optional[bool] = Field(False)] *)
Definition validate_requires_human (raw : gmap string value) : string + option bool :=
  match raw !! "requires_human" with
  | None => inr (Some false)
  | Some VNone => inr None
  | Some v =>
      match bool_validator v with
      | Some b => inr (Some b)
      | None => inl "value could not be parsed to a boolean"
      end
  end.

Definition field_errors {A : Type} (loc : string) (r : string + A) : list FieldError :=
  match r with
  | inl m => [ {| err_loc := loc; err_msg := m |} ]
  | inr _ => []
  end.

Definition validated {A : Type} (r : string + A) : option A :=
  match r with
  | inl _ => None
  | inr a => Some a
  end.

(** the constructor call of [PlanStep] on a raw step: the fields are validated in declaration order,
    every error is collected, and the model is built only when there
    is none.  Keys that are not fields are ignored. *)
Definition PlanStep_init (raw : gmap string value) : list FieldError + PlanStep :=
  let r_step_id := validate_step_id raw in
  let r_tool := validate_tool raw in
  let r_args := validate_args raw (validated r_tool) in
  let r_reason := validate_reason raw in
  let r_confidence := validate_confidence raw in
  let r_retry := validate_retry raw in
  let r_requires_human := validate_requires_human raw in
  match r_step_id, r_tool, r_args, r_reason, r_confidence, r_retry, r_requires_human with
  | inr i, inr t, inr a, inr r, inr c, inr n, inr h =>
      inr {| step_id := i; tool := t; args := a; reason := r;
             confidence := c; retry := n; requires_human := h |}
  | _, _, _, _, _, _, _ =>
      inl (field_errors "step_id" r_step_id ++ field_errors "tool" r_tool
           ++ field_errors "args" r_args ++ field_errors "reason" r_reason
           ++ field_errors "confidence" r_confidence ++ field_errors "retry" r_retry
           ++ field_errors "requires_human" r_requires_human)%list
  end.

(** The list comprehension over [plan_steps]: the first step that
    does not validate raises. *)
Fixpoint validate_steps (plan_steps : list (gmap string value))
    : list FieldError + list PlanStep :=
  match plan_steps with
  | [] => inr []
  | raw :: rest =>
      match PlanStep_init raw with
      | inl errs => inl errs
      | inr step =>
          match validate_steps rest with
          | inl errs => inl errs
          | inr steps => inr (step :: steps)
          end
      end
  end.
End Validation.

Inductive Status : Type := ok | error | paused | running.

#[export] Instance Status_eq_dec : EqDecision Status.
Proof. solve_decision. Defined.

(** [ExecutionStepResult]; the two timestamps are kept as the one fact
    the runner decides, whether [finished_at] has been set. *)
Record ExecutionStepResult : Type := {
  sr_step_id : Z;
  sr_status : Status;
  sr_output : value;
  sr_error_message : option string;
  sr_finished : bool;
  retry_count : Z
}.

(** [ExecutionStepResult(step_id=..., status=...)] *)
Definition ExecutionStepResult_init (id : Z) (st : Status) : ExecutionStepResult :=
  {| sr_step_id := id; sr_status := st; sr_output := VNone;
     sr_error_message := None; sr_finished := false; retry_count := 0 |}.

(** [if error_message:] — [None] and the empty string are falsy. *)
Definition set_if_truthy (new : option string) (old : option string) : option string :=
  match new with
  | None | Some "" => old
  | Some m => Some m
  end.

(** [ExecutionStepResult.mark_finished] *)
Definition step_mark_finished (st : Status) (output : value) (error_message : option string)
    (self : ExecutionStepResult) : ExecutionStepResult :=
  {| sr_step_id := sr_step_id self;
     sr_status := st;
     sr_output := match output with VNone => sr_output self | _ => output end;
     sr_error_message := set_if_truthy error_message (sr_error_message self);
     sr_finished := true;
     retry_count := retry_count self |}.

Record ExecutionResult : Type := {
  task_id : string;
  status : Status;
  steps : list ExecutionStepResult;
  finished : bool;
  error_message : option string;
  session_id : option string
}.

(** [ExecutionResult(task_id=..., status=..., session_id=...)] *)
Definition ExecutionResult_init (tid : string) (st : Status) (sid : option string)
    : ExecutionResult :=
  {| task_id := tid; status := st; steps := []; finished := false;
     error_message := None; session_id := sid |}.

(** [ExecutionResult.mark_finished] *)
Definition mark_finished (st : Status) (msg : option string) (self : ExecutionResult)
    : ExecutionResult :=
  {| task_id := task_id self;
     status := st;
     steps := steps self;
     finished := true;
     error_message := set_if_truthy msg (error_message self);
     session_id := session_id self |}.

(** [ExecutionResult.get_step_outputs]: the dict comprehension runs
    over the steps in order, so of two steps with one id the later one
    stays. *)
Definition get_step_outputs (self : ExecutionResult) : gmap Z value :=
  foldl (fun d step =>
           if bool_decide (sr_status step = ok)
              && match sr_output step with VNone => false | _ => true end
           then <[sr_step_id step := sr_output step]> d
           else d)
    ∅ (steps self).

(** [ExecutionResult.get_final_output] *)
Definition get_final_output (self : ExecutionResult) : value :=
  let successful_steps := filter (fun s => sr_status s = ok) (steps self) in
  match last successful_steps with
  | Some s => sr_output s
  | None => VNone
  end.

(** A raw step written as a dict literal with the five keys the planner
    and the sample plans use. *)
Definition raw_plan_step (id : Z) (tool : string) (args : gmap string value)
    (reason : string) (confidence : Q) : gmap string value :=
  {[ "step_id" := VInt id; "tool" := VStr tool; "args" := VDict args;
     "reason" := VStr reason; "confidence" := VFloat confidence ]}.

End Schema.

Import Schema.

(** ** tools.py: the tool registry *)

Module Tools.

(** What one call of a tool function did: the value it returned or the
    exception it raised, and for how many seconds it ran. *)
Record Invocation : Type := { outcome : exn + value; elapsed : Q }.

Section Registry.
Context {W : Type}.

(** A tool function is called with keyword arguments and acts on the
    world outside the program (network, files). *)
Definition tool_func : Type := gmap string value -> W -> Invocation * W.

Record ToolEntry : Type := { function : tool_func; description : string }.

(** [ToolRegistry._tools], in insertion order. *)
Definition ToolRegistry : Type := list (string * ToolEntry).

(** [ToolRegistry.register] *)
Definition register (name : string) (func : tool_func) (descr : option string)
    (self : ToolRegistry) : ToolRegistry :=
  let d := match descr with
           | None | Some "" => "Tool: " ++ name
           | Some d => d
           end in
  dict_set name {| function := func; description := d |} self.

(** [ToolRegistry.list_tools] *)
Definition list_tools (self : ToolRegistry) : list string := dict_keys self.

(** [ToolRegistry.get_tool]; [get_tool_function] is this method on the
    global registry. *)
Definition get_tool (name : string) (self : ToolRegistry) : exn + tool_func :=
  match dict_get name self with
  | None =>
      inl (ValueError ("Tool '" ++ name ++ "' not found. Available tools: "
                         ++ repr_str_list (dict_keys self)))
  | Some entry => inr (function entry)
  end.
End Registry.

Arguments tool_func : clear implicits.
Arguments ToolEntry : clear implicits.
Arguments ToolRegistry : clear implicits.


(** [ToolRegistry], the rest of the class. *)
Section RegistryDefaults.
Context {W : Type}.

(** [ToolRegistry.get_tool_descriptions] *)
Definition get_tool_descriptions (self : ToolRegistry W) : list (string * string) :=
  map (fun '(name, info) => (name, description info)) self.

(** The five tool functions of [tools.py]; what they do is done on the
    network and the file system. *)
Record ToolFunctions : Type := {
  search_tool : tool_func W;
  open_tool : tool_func W;
  extract_tool : tool_func W;
  screenshot_tool : tool_func W;
  download_tool : tool_func W
}.

(** [ToolRegistry._register_default_tools] *)
Definition _register_default_tools (impl : ToolFunctions) (self : ToolRegistry W)
    : ToolRegistry W :=
  let self := register "search" (search_tool impl)
                (Some "Search for information online") self in
  let self := register "open" (open_tool impl)
                (Some "Open and fetch content from a URL") self in
  let self := register "extract" (extract_tool impl)
                (Some "Extract data from HTML using CSS selectors") self in
  let self := register "screenshot" (screenshot_tool impl)
                (Some "Take a screenshot of a webpage") self in
  register "download" (download_tool impl) (Some "Download a file from a URL") self.

(** [ToolRegistry.__init__], the value of the global [tool_registry]. *)
Definition ToolRegistry_init (impl : ToolFunctions) : ToolRegistry W :=
  _register_default_tools impl [].
End RegistryDefaults.

Arguments ToolFunctions : clear implicits.

End Tools.

Import Tools.

(** ** The process state and its monad *)

Module Proc.

(** One call of the progress callback. *)
Record Update : Type := { up_step_id : Z; up_status : Status; up_payload : value }.

(** One tool invocation: the tool's name and the keyword arguments. *)
Record Call : Type := { call_tool : string; call_args : gmap string value }.

Section State.
Context {W : Type}.

(** What a run can touch: the world the tools act on, the module
    globals of [executor.py], and a record of what was done (tool
    calls, progress callbacks, seconds slept, results written out),
    each oldest first. *)
Record State : Type := {
  world : W;
  calls : list Call;
  updates : list Update;
  slept : Z;
  custom_runner_built : bool;
  langchain_runner_built : bool;
  saved : list ExecutionResult
}.

(** A computation either returns or raises, and leaves a state. *)
Definition M (A : Type) : Type := State -> (exn + A) * State.

Definition ret {A : Type} (a : A) : M A := fun s => (inr a, s).

Definition raise {A : Type} (e : exn) : M A := fun s => (inl e, s).

Definition bind {A B : Type} (m : M A) (k : A -> M B) : M B :=
  fun s =>
    match m s with
    | (inl e, s') => (inl e, s')
    | (inr a, s') => k a s'
    end.

(** [try: body except Exception as e: handler e] *)
Definition try_except {A : Type} (body : M A) (handler : exn -> M A) : M A :=
  fun s =>
    match body s with
    | (inl e, s') => handler e s'
    | (inr a, s') => (inr a, s')
    end.

Definition modify (f : State -> State) : M unit := fun s => (inr tt, f s).

Definition set_world (w : W) (s : State) : State :=
  {| world := w; calls := calls s; updates := updates s; slept := slept s;
     custom_runner_built := custom_runner_built s;
     langchain_runner_built := langchain_runner_built s; saved := saved s |}.

Definition log_call (c : Call) (s : State) : State :=
  {| world := world s; calls := calls s ++ [c]; updates := updates s; slept := slept s;
     custom_runner_built := custom_runner_built s;
     langchain_runner_built := langchain_runner_built s; saved := saved s |}.

Definition log_update (u : Update) (s : State) : State :=
  {| world := world s; calls := calls s; updates := updates s ++ [u]; slept := slept s;
     custom_runner_built := custom_runner_built s;
     langchain_runner_built := langchain_runner_built s; saved := saved s |}.

Definition add_slept (n : Z) (s : State) : State :=
  {| world := world s; calls := calls s; updates := updates s; slept := slept s + n;
     custom_runner_built := custom_runner_built s;
     langchain_runner_built := langchain_runner_built s; saved := saved s |}.

Definition set_custom_runner_built (s : State) : State :=
  {| world := world s; calls := calls s; updates := updates s; slept := slept s;
     custom_runner_built := true;
     langchain_runner_built := langchain_runner_built s; saved := saved s |}.

Definition set_langchain_runner_built (s : State) : State :=
  {| world := world s; calls := calls s; updates := updates s; slept := slept s;
     custom_runner_built := custom_runner_built s;
     langchain_runner_built := true; saved := saved s |}.

Definition log_saved (r : ExecutionResult) (s : State) : State :=
  {| world := world s; calls := calls s; updates := updates s; slept := slept s;
     custom_runner_built := custom_runner_built s;
     langchain_runner_built := langchain_runner_built s; saved := saved s ++ [r] |}.

(** A state in which nothing has run yet. *)
Definition initial (w : W) : State :=
  {| world := w; calls := []; updates := []; slept := 0;
     custom_runner_built := false; langchain_runner_built := false; saved := [] |}.

(** [time.sleep(n)] *)
Definition sleep (n : Z) : M unit := modify (add_slept n).

(** [if on_update: on_update(step_id, status, payload)]; a callback
    that is supplied is taken to return normally. *)
Definition notify (on_update : bool) (id : Z) (st : Status) (payload : value) : M unit :=
  if on_update
  then modify (log_update {| up_step_id := id; up_status := st; up_payload := payload |})
  else ret tt.

(** [executor.submit(tool_func, **args)] followed by the wait for the
    worker: the call runs to its end in the world whether or not the
    caller gives up on it, because leaving the [with] block joins the
    worker thread. *)
Definition submit (name : string) (f : tool_func W) (args : gmap string value)
    : M Invocation :=
  fun s =>
    let '(inv, w') := f args (world s) in
    (inr inv, set_world w' (log_call {| call_tool := name; call_args := args |} s)).
End State.

Arguments State : clear implicits.
Arguments M : clear implicits.

End Proc.

Import Proc.

Notation "'let!' x ':=' m 'in' k" := (bind m (fun x => k))
  (at level 10, x name, m at level 100, k at level 200).
Notation "m ';;' k" := (bind m (fun _ => k))
  (at level 100, k at level 200, right associativity).

(** ** custom_runner.py: the native runner *)

Module CustomRunner.

(** The two settings [CustomRunner.__init__] reads from the
    configuration. *)
Record Config : Type := { step_timeout : Z; max_retries : Z }.

(** [load_orchestrator_config()] with no environment variable set. *)
Definition default_config : Config := {| step_timeout := 60; max_retries := 3 |}.

(** The step context: [step_context], a dict iterated in insertion
    order. *)
Definition Context_ : Type := list (string * value).

(** What the body of the [for] loop does next: go on to the next step,
    or return from [execute_plan]. *)
Inductive Flow : Type :=
  | Continue (result : ExecutionResult) (step_context : Context_)
  | Return (result : ExecutionResult).

(** [future.result(timeout=T)]: the outcome of the call when it is over
    within [T] seconds, [FutureTimeoutError] otherwise. *)
Definition future_result (T : Z) (inv : Invocation) : exn + value :=
  if Qle_bool (elapsed inv) (inject_Z T) then outcome inv else inl FutureTimeoutError.

(** The scan of [context.items()] in [_execute_step]: the first value
    that is a string starting with ["<"] becomes ['html'], and the loop
    breaks. *)
Fixpoint inject_html (items : list (string * value)) (args : gmap string value)
    : gmap string value :=
  match items with
  | [] => args
  | (_, v) :: rest =>
      if looks_like_markup v then <["html" := v]> args else inject_html rest args
  end.

(** [step_result] is the object last appended to [result.steps]: what
    the runner does to it is done to that element. *)
Fixpoint update_last {A : Type} (f : A -> A) (l : list A) : list A :=
  match l with
  | [] => []
  | [x] => [f x]
  | x :: rest => x :: update_last f rest
  end.

Definition with_step_result (f : ExecutionStepResult -> ExecutionStepResult)
    (result : ExecutionResult) : ExecutionResult :=
  {| task_id := task_id result; status := status result;
     steps := update_last f (steps result); finished := finished result;
     error_message := error_message result; session_id := session_id result |}.

Definition append_step (sr : ExecutionStepResult) (result : ExecutionResult) : ExecutionResult :=
  {| task_id := task_id result; status := status result;
     steps := steps result ++ [sr]; finished := finished result;
     error_message := error_message result; session_id := session_id result |}.

(** [step_result.retry_count], read through [result.steps]. *)
Definition current_retry_count (result : ExecutionResult) : Z :=
  match last (steps result) with
  | Some sr => retry_count sr
  | None => 0
  end.

(** [step_result.retry_count += 1] *)
Definition incr_retry_count (sr : ExecutionStepResult) : ExecutionStepResult :=
  {| sr_step_id := sr_step_id sr; sr_status := sr_status sr; sr_output := sr_output sr;
     sr_error_message := sr_error_message sr; sr_finished := sr_finished sr;
     retry_count := retry_count sr + 1 |}.

(** [f"step_{step.step_id}_output"] *)
Definition output_key (step : PlanStep) : string :=
  "step_" ++ str_of_int (step_id step) ++ "_output".

(** Truth value of [step.retry and step_result.retry_count < step.retry]. *)
Definition may_retry (step : PlanStep) (result : ExecutionResult) : bool :=
  match retry step with
  | None => false
  | Some n => negb (n =? 0)%Z && (current_retry_count result <? n)%Z
  end.

(** Truth value of [step.requires_human]. *)
Definition needs_human (step : PlanStep) : bool :=
  match requires_human step with
  | Some b => b
  | None => false
  end.

Section Runner.
Context {W : Type} {pyd : Pydantic}.
Variable registry : ToolRegistry W.
Variable self : Config.

(** [CustomRunner._execute_step] *)
Definition _execute_step (step : PlanStep) (context : Context_) : M W value :=
  let! tool_func :=
    try_except
      (match get_tool (tool step) registry with
       | inl e => raise e
       | inr f => ret f
       end)
      (fun e =>
         match e with
         | ValueError _ => raise (RuntimeError ("Tool not available: " ++ str_exn e))
         | _ => raise e
         end) in
  let args := args step in
  let args :=
    if String.eqb (tool step) "extract" && bool_decide (args !! "html" = None)
    then inject_html context args
    else args in
  let! inv := submit (tool step) tool_func args in
  match future_result (step_timeout self) inv with
  | inr result => ret result
  | inl FutureTimeoutError =>
      raise (RuntimeError ("Step " ++ str_of_int (step_id step) ++ " timed out after "
                             ++ str_of_int (step_timeout self) ++ " seconds"))
  | inl e => raise (RuntimeError ("Tool execution failed: " ++ str_exn e))
  end.

(** The end of the [except] block of the loop body: pause for a human,
    or fail; either way [execute_plan] returns. *)
Definition stop_run (on_update : bool) (step : PlanStep) (result : ExecutionResult)
    (error_msg : string) : M W Flow :=
  if needs_human step then
    let result :=
      with_step_result
        (step_mark_finished paused VNone
           (Some ("Human intervention required: " ++ error_msg))) result in
    let result :=
      mark_finished paused
        (Some ("Step " ++ str_of_int (step_id step) ++ " requires human intervention"))
        result in
    notify on_update (step_id step) paused (VStr error_msg) ;;
    ret (Return result)
  else
    let result :=
      with_step_result (step_mark_finished error VNone (Some error_msg)) result in
    notify on_update (step_id step) error (VStr error_msg) ;;
    let result :=
      mark_finished error
        (Some ("Step " ++ str_of_int (step_id step) ++ " failed: " ++ error_msg))
        result in
    ret (Return result).

(** The body of the [for] loop of [execute_plan]. *)
Definition run_step (on_update : bool) (step : PlanStep) (result : ExecutionResult)
    (step_context : Context_) : M W Flow :=
  let step_result := ExecutionStepResult_init (step_id step) running in
  let result := append_step step_result result in
  notify on_update (step_id step) running VNone ;;
  try_except
    (let! output := _execute_step step step_context in
     let result := with_step_result (step_mark_finished ok output None) result in
     notify on_update (step_id step) ok output ;;
     ret (Continue result (dict_set (output_key step) output step_context)))
    (fun e =>
       let error_msg := str_exn e in
       if may_retry step result then
         let result := with_step_result incr_retry_count result in
         try_except
           (sleep 1 ;;
            let! output := _execute_step step step_context in
            let result := with_step_result (step_mark_finished ok output None) result in
            let step_context := dict_set (output_key step) output step_context in
            notify on_update (step_id step) ok output ;;
            ret (Continue result step_context))
           (fun retry_error =>
              let error_msg :=
                "Step failed after " ++ str_of_int (current_retry_count result)
                  ++ " retries: " ++ str_exn retry_error in
              stop_run on_update step result error_msg)
       else stop_run on_update step result error_msg).

(** The [for] loop of [execute_plan] and what follows it. *)
Fixpoint run_steps (on_update : bool) (validated_steps : list PlanStep)
    (result : ExecutionResult) (step_context : Context_) : M W ExecutionResult :=
  match validated_steps with
  | [] => ret (mark_finished ok None result)
  | step :: rest =>
      let! flow := run_step on_update step result step_context in
      match flow with
      | Continue result step_context => run_steps on_update rest result step_context
      | Return result => ret result
      end
  end.

(** [CustomRunner.execute_plan] *)
Definition execute_plan (plan_steps : list (gmap string value)) (task_id : string)
    (session_id : option string) (on_update : bool) : M W ExecutionResult :=
  let result := ExecutionResult_init task_id running session_id in
  match validate_steps plan_steps with
  | inl e =>
      let error_msg := "Invalid plan format: " ++ display_errors e in
      ret (mark_finished error (Some error_msg) result)
  | inr validated_steps => run_steps on_update validated_steps result []
  end.
End Runner.

End CustomRunner.

(** ** executor.py: the public entry point *)

Module Executor.

Inductive RunnerKind : Type := Native | Agent.

Section Facade.
Context {W : Type} {pyd : Pydantic}.

(** What [executor.py] takes from outside the orchestrator core: the
    configuration read from the environment, the agent runner of
    [langchain_runner.py] (whose constructor raises [ImportError] when
    the framework is not installed), [uuid.uuid4] and the file system. *)
Record Externals : Type := {
  langchain_enabled : bool;
  config : CustomRunner.Config;
  LangChainRunner_init : option exn;
  LangChainRunner_execute_plan :
    list (gmap string value) -> string -> option string -> bool -> M W ExecutionResult;
  uuid4_hex8 : W -> string * W;
  write_json : ExecutionResult -> W -> option exn * W
}.

Variable registry : ToolRegistry W.
Variable ext : Externals.

(** The [else] branch of [get_runner], also its fallback. *)
Definition get_custom_runner : M W RunnerKind :=
  fun s =>
    if custom_runner_built s then (inr Native, s)
    else (inr Native, set_custom_runner_built s).

(** [get_runner] *)
Definition get_runner : M W RunnerKind :=
  if langchain_enabled ext then
    fun s =>
      if langchain_runner_built s then (inr Agent, s)
      else
        match LangChainRunner_init ext with
        | None => (inr Agent, set_langchain_runner_built s)
        | Some (ImportError _) => get_custom_runner s
        | Some e => (inl e, s)
        end
  else get_custom_runner.

(** [save_execution_result] *)
Definition save_execution_result (result : ExecutionResult) : M W unit :=
  fun s =>
    match write_json ext result (world s) with
    | (Some e, w') => (inl e, set_world w' s)
    | (None, w') => (inr tt, log_saved result (set_world w' s))
    end.

(** [execute_plan] of [executor.py].  The runner is always handed the
    wrapper [update_callback], so for it a callback is present. *)
Definition execute_plan (plan : list (gmap string value)) (session_id : option string)
    (task_id : option string) (on_update : bool) (save_results : bool)
    : M W ExecutionResult :=
  match plan with
  | [] => raise (ValueError "Plan cannot be empty")
  | _ :: _ =>
      let! task_id :=
        match task_id with
        | Some t => ret t
        | None =>
            fun s =>
              let '(h, w') := uuid4_hex8 ext (world s) in
              (inr ("task_" ++ h), set_world w' s)
        end in
      let! runner := get_runner in
      let! result :=
        match runner with
        | Native =>
            CustomRunner.execute_plan registry (config ext) plan task_id session_id true
        | Agent => LangChainRunner_execute_plan ext plan task_id session_id true
        end in
      (if save_results
       then try_except (save_execution_result result) (fun _ => ret tt)
       else ret tt) ;;
      ret result
  end.
End Facade.

Arguments Externals : clear implicits.


(** [get_execution_history] *)
Section History.

(** What [get_execution_history] reads: the configured output
    directory, whether it exists, the names [os.listdir] gives for it,
    in the order it gives them, and the modification time of a path.
    [os.path.join] is the library's.  Listing the directory and reading
    a modification time are taken to succeed. *)
Record OutputDir : Type := {
  output_dir : string;
  dir_exists : bool;
  listdir : list string;
  path_join : string -> string -> string;
  getmtime : string -> Q
}.

(** [s.endswith(suffix)] *)
Definition endswith (s suffix : string) : bool :=
  (String.length suffix <=? String.length s)%nat
  && String.eqb (substring (String.length s - String.length suffix)
                   (String.length suffix) s) suffix.

(** [files.sort(key=lambda x: x[1], reverse=True)]: the sort is stable,
    so files of one modification time stay in the order they had. *)
Fixpoint insert_by_mtime (x : string * Q) (sorted : list (string * Q))
    : list (string * Q) :=
  match sorted with
  | [] => [x]
  | y :: rest =>
      if Qle_bool (snd y) (snd x) then x :: y :: rest
      else y :: insert_by_mtime x rest
  end.

Definition sort_newest_first (files : list (string * Q)) : list (string * Q) :=
  foldr insert_by_mtime [] files.

(** [files[:limit]] *)
Definition slice_to {A : Type} (limit : Z) (l : list A) : list A :=
  if (0 <=? limit)%Z then take (Z.to_nat limit) l
  else take (length l - Z.to_nat (- limit)) l.

Definition get_execution_history (fs : OutputDir) (limit : Z) : list string :=
  if negb (dir_exists fs) then []
  else
    let files :=
      map (fun filename =>
             let filepath := path_join fs (output_dir fs) filename in
             (filepath, getmtime fs filepath))
        (filter (fun filename => endswith filename ".json" = true) (listdir fs)) in
    map fst (slice_to limit (sort_newest_first files)).
End History.

(** [execute_simple_plan] *)
Section SimplePlan.
Context {W : Type} {pyd : Pydantic}.

(** The string methods [execute_simple_plan] uses: [s.lower()],
    [needle in s], [s.replace(old, new)], [s.strip()] and [s.split()].
    They are the language's and work on code points; the plan that is
    built does not depend on how they do it. *)
Class StrOps : Type := {
  lower : string -> string;
  contains : string -> string -> bool;
  replace : string -> string -> string -> string;
  strip : string -> string;
  split : string -> list string
}.

Context {ops : StrOps}.

(** The double nearest to 0.8. *)
Definition confidence_0_8 : Q := 3602879701896397 # 4503599627370496.

(** [next((word for word in words if word.startswith("http")), default)] *)
Definition first_url (words : list string) (default : string) : string :=
  match List.find (String.prefix "http") words with
  | Some word => word
  | None => default
  end.

(** One round of the loop of [execute_simple_plan]. *)
Definition simple_step (i : Z) (instruction : string) : gmap string value :=
  let '(tool, args) :=
    if contains "search" (lower instruction) then
      ("search",
       ({[ "query" := VStr (strip (replace instruction "search for" "")) ]}
          : gmap string value))
    else if contains "open" (lower instruction) then
      let words := split instruction in
      let url := first_url words "https://example.com" in
      ("open", {[ "url" := VStr url ]})
    else ("search", {[ "query" := VStr instruction ]}) in
  raw_plan_step i tool args instruction confidence_0_8.

(** [for i, instruction in enumerate(instructions, 1)] *)
Fixpoint simple_plan_from (i : Z) (instructions : list string) : list (gmap string value) :=
  match instructions with
  | [] => []
  | instruction :: rest => simple_step i instruction :: simple_plan_from (i + 1) rest
  end.

Variable registry : ToolRegistry W.
Variable ext : Externals W.

Definition execute_simple_plan (instructions : list string) (session_id : option string)
    : M W ExecutionResult :=
  execute_plan registry ext (simple_plan_from 1 instructions) session_id None false true.
End SimplePlan.

(** The string methods on strings of ASCII characters, to run
    [execute_simple_plan] on. *)
Definition lower_char (c : ascii) : ascii :=
  let n := nat_of_ascii c in
  if (65 <=? n)%nat && (n <=? 90)%nat then ascii_of_nat (n + 32) else c.

Fixpoint lower_ascii (s : string) : string :=
  match s with
  | EmptyString => EmptyString
  | String c rest => String (lower_char c) (lower_ascii rest)
  end.

Definition contains_ascii (needle s : string) : bool :=
  match index 0 needle s with
  | Some _ => true
  | None => false
  end.

(** Replacement of a pattern that is not empty, leftmost first. *)
Fixpoint replace_fuel (fuel : nat) (s old new : string) : string :=
  match fuel with
  | O => s
  | S fuel' =>
      match s with
      | EmptyString => EmptyString
      | String c rest =>
          if String.prefix old s
          then new ++ replace_fuel fuel'
                        (substring (String.length old)
                           (String.length s - String.length old) s) old new
          else String c (replace_fuel fuel' rest old new)
      end
  end.

Definition replace_ascii (s old new : string) : string :=
  replace_fuel (S (String.length s)) s old new.

Definition is_space (c : ascii) : bool :=
  let n := nat_of_ascii c in
  (n =? 32)%nat || ((9 <=? n)%nat && (n <=? 13)%nat).

Fixpoint lstrip_chars (l : list ascii) : list ascii :=
  match l with
  | [] => []
  | c :: rest => if is_space c then lstrip_chars rest else l
  end.

Definition strip_ascii (s : string) : string :=
  string_of_list_ascii
    (rev (lstrip_chars (rev (lstrip_chars (list_ascii_of_string s))))).

(** [s.split()]: the runs of characters that are not white space. *)
Fixpoint split_chars (word : list ascii) (l : list ascii) : list string :=
  match l with
  | [] => match word with [] => [] | _ => [string_of_list_ascii (rev word)] end
  | c :: rest =>
      if is_space c
      then match word with
           | [] => split_chars [] rest
           | _ => string_of_list_ascii (rev word) :: split_chars [] rest
           end
      else split_chars (c :: word) rest
  end.

Definition split_ascii (s : string) : list string :=
  split_chars [] (list_ascii_of_string s).

#[export] Instance ascii_str_ops : StrOps := {|
  lower := lower_ascii;
  contains := contains_ascii;
  replace := replace_ascii;
  strip := strip_ascii;
  split := split_ascii
|}.

End Executor.

(** ** langchain_runner.py: the agent runner *)

Module LangChainRunner.

Import CustomRunner.

Section Agent.
Context {W : Type} {pyd : Pydantic}.

(** What the runner takes from the agent framework: building the prompt
    template, building the agent and its executor for a plan, and
    [agent_executor.invoke] for a step of the plan, which returns a dict
    that may have an ['output'] key.  The tools are called by the
    agent, inside [invoke]. *)
Record Agent : Type := {
  from_template : option exn;
  create_agent_executor : list PlanStep -> option exn;
  invoke : PlanStep -> list PlanStep -> W -> (exn + option value) * W
}.

Variable agent : Agent.

(** [agent_executor.invoke(...)] *)
Definition invoke_agent (step : PlanStep) (validated_steps : list PlanStep)
    : M W (option value) :=
  fun s =>
    let '(x, w') := invoke agent step validated_steps (world s) in
    (x, set_world w' s).

(** The body of the [for] loop of [LangChainRunner.execute_plan]. *)
Definition run_step (on_update : bool) (validated_steps : list PlanStep) (step : PlanStep)
    (result : ExecutionResult) : M W Flow :=
  let step_result := ExecutionStepResult_init (step_id step) running in
  let result := append_step step_result result in
  notify on_update (step_id step) running VNone ;;
  try_except
    (let! agent_result := invoke_agent step validated_steps in
     let output :=
       match agent_result with
       | Some v => v
       | None => VStr "No output"
       end in
     let result := with_step_result (step_mark_finished ok output None) result in
     notify on_update (step_id step) ok output ;;
     ret (Continue result []))
    (fun e =>
       let error_msg := "LangChain execution failed: " ++ str_exn e in
       if needs_human step then
         let result :=
           with_step_result (step_mark_finished paused VNone (Some error_msg)) result in
         let result :=
           mark_finished paused
             (Some ("Step " ++ str_of_int (step_id step) ++ " requires human intervention"))
             result in
         ret (Return result)
       else
         let result :=
           with_step_result (step_mark_finished error VNone (Some error_msg)) result in
         let result :=
           mark_finished error
             (Some ("Step " ++ str_of_int (step_id step) ++ " failed: " ++ error_msg))
             result in
         ret (Return result)).

(** The [for] loop and what follows it. *)
Fixpoint run_steps (on_update : bool) (validated_steps : list PlanStep)
    (remaining : list PlanStep) (result : ExecutionResult) : M W ExecutionResult :=
  match remaining with
  | [] => ret (mark_finished ok None result)
  | step :: rest =>
      let! flow := run_step on_update validated_steps step result in
      match flow with
      | Continue result _ => run_steps on_update validated_steps rest result
      | Return result => ret result
      end
  end.

(** [LangChainRunner.execute_plan].  The prompt template is built
    outside the [try] block; what the agent framework raises while the
    agent is built is caught. *)
Definition execute_plan (plan_steps : list (gmap string value)) (task_id : string)
    (session_id : option string) (on_update : bool) : M W ExecutionResult :=
  let result := ExecutionResult_init task_id running session_id in
  match validate_steps plan_steps with
  | inl e =>
      let error_msg := "Invalid plan format: " ++ display_errors e in
      ret (mark_finished error (Some error_msg) result)
  | inr validated_steps =>
      match from_template agent with
      | Some e => raise e
      | None =>
          try_except
            (match create_agent_executor agent validated_steps with
             | Some e => raise e
             | None => run_steps on_update validated_steps validated_steps result
             end)
            (fun e =>
               let error_msg := "LangChain agent setup failed: " ++ str_exn e in
               ret (mark_finished error (Some error_msg) result))
      end
  end.
End Agent.

Arguments Agent : clear implicits.

End LangChainRunner.

(** ** prompts.py: the sample plans *)

Module Prompts.

(** The doubles nearest to the confidences of the sample plans. *)
Definition confidence_0_9 : Q := 8106479329266893 # 9007199254740992.
Definition confidence_0_85 : Q := 7656119366529843 # 9007199254740992.
Definition confidence_0_7 : Q := 3152519739159347 # 4503599627370496.
Definition confidence_0_95 : Q := 4278419646001971 # 4503599627370496.

(** [SAMPLE_PLANS] *)
Definition SAMPLE_PLANS : list (string * list (gmap string value)) :=
  [ ("laptop_search",
     [ raw_plan_step 1 "search" {[ "query" := VStr "laptops under 50000 INR" ]}
         "Search for affordable laptops" confidence_0_9;
       raw_plan_step 2 "open" {[ "url" := VStr "https://www.flipkart.com/" ]}
         "Open e-commerce site" Executor.confidence_0_8 ]);
    ("web_research",
     [ raw_plan_step 1 "open" {[ "url" := VStr "https://example.com" ]}
         "Open target website" confidence_0_9;
       raw_plan_step 2 "extract" {[ "selector" := VStr "h1, h2, .main-content" ]}
         "Extract main content from page" confidence_0_85;
       raw_plan_step 3 "screenshot"
         {[ "url" := VStr "https://example.com"; "full_page" := VBool true ]}
         "Take screenshot for reference" confidence_0_7 ]);
    ("simple_test",
     [ raw_plan_step 1 "search" {[ "query" := VStr "python programming tutorial" ]}
         "Find programming resources" confidence_0_95 ]) ].

(** [get_sample_plan]: [SAMPLE_PLANS.get(plan_name, SAMPLE_PLANS["simple_test"])] *)
Definition get_sample_plan (plan_name : string) : list (gmap string value) :=
  match dict_get plan_name SAMPLE_PLANS with
  | Some plan => plan
  | None =>
      match dict_get "simple_test" SAMPLE_PLANS with
      | Some plan => plan
      | None => []
      end
  end.

End Prompts.

(** ** Concrete plans and tools *)

Module Samples.

Import CustomRunner.

(** A raw step with the three required keys. *)
Definition raw_step (id : Z) (tool : string) (args : list (string * value))
    : gmap string value :=
  {[ "step_id" := VInt id; "tool" := VStr tool; "args" := VDict (list_to_map args) ]}.

Definition with_key (k : string) (v : value) (raw : gmap string value)
    : gmap string value := <[k := v]> raw.

(** A tool whose world is the number of times it has been called: it
    raises on each of its first [r] calls and returns [v] afterwards. *)
Definition flaky (r : nat) (v : value) : tool_func nat :=
  fun _ n =>
    ({| outcome := if (n <? r)%nat then inl (OtherException "connection reset") else inr v;
        elapsed := 0 |}, S n).

(** A tool that returns [v] at once. *)
Definition constant {W : Type} (v : value) : tool_func W :=
  fun _ w => ({| outcome := inr v; elapsed := 0 |}, w).

(** A tool that returns its ['url'] argument wrapped in markup. *)
Definition fetch {W : Type} : tool_func W :=
  fun args w =>
    ({| outcome :=
          match args !! "url" with
          | Some (VStr u) => inr (VStr ("<html>" ++ u ++ "</html>"))
          | _ => inl (OtherException "missing url")
          end;
        elapsed := 0 |}, w).

(** A tool that takes [secs] seconds to return [v]. *)
Definition slow {W : Type} (secs : Z) (v : value) : tool_func W :=
  fun _ w => ({| outcome := inr v; elapsed := inject_Z secs |}, w).

Definition entry {W : Type} (f : tool_func W) : ToolEntry W :=
  {| function := f; description := "sample" |}.

(** A validated [search] step with the given retry budget and
    escalation flag. *)
Definition search_step (id : Z) (budget : Z) (human : bool) : PlanStep :=
  {| step_id := id; tool := "search"; args := {[ "query" := VStr "nexus" ]};
     reason := None; confidence := None; retry := Some budget;
     requires_human := Some human |}.

(** A registry whose [search] fails [r] times before it returns. *)
Definition flaky_registry (r : nat) : ToolRegistry nat :=
  [("search", entry (flaky r (VStr "found")))].

(** The result [execute_plan] starts from. *)
Definition blank : ExecutionResult := ExecutionResult_init "task_1" running None.

(** A registry for plans that fetch pages and extract from them. *)
Definition page_registry : ToolRegistry unit :=
  [("open", entry fetch); ("extract", entry (constant (VList [VStr "Title"])))].

Definition open_then_extract : list (gmap string value) :=
  [ raw_step 1 "open" [("url", VStr "https://a.example")];
    raw_step 2 "extract" [("selector", VStr "h1")] ].

Definition open_twice_then_extract : list (gmap string value) :=
  [ raw_step 1 "open" [("url", VStr "https://a.example")];
    raw_step 2 "open" [("url", VStr "https://b.example")];
    raw_step 3 "extract" [("selector", VStr "h1")] ].

(** The two steps of [open_then_extract] once validated. *)
Definition open_step : PlanStep :=
  {| step_id := 1; tool := "open";
     args := list_to_map [("url", VStr "https://a.example")];
     reason := None; confidence := None; retry := Some 0;
     requires_human := Some false |}.

Definition extract_step : PlanStep :=
  {| step_id := 2; tool := "extract";
     args := list_to_map [("selector", VStr "h1")];
     reason := None; confidence := None; retry := Some 0;
     requires_human := Some false |}.

(** A registry whose [search] takes a minute and a half. *)
Definition slow_registry : ToolRegistry unit :=
  [("search", entry (slow 90 (VStr "late")))].

(** Raw plans that the specification expects to be turned away or
    repaired. *)
Definition plan_with_unknown_tool : list (gmap string value) :=
  [ raw_step 1 "browse" [("url", VStr "https://a.example")] ].

Definition plan_starting_at_two : list (gmap string value) :=
  [ raw_step 2 "search" [("query", VStr "nexus")] ].

Definition plan_with_confidence (c : Q) : list (gmap string value) :=
  [ with_key "confidence" (VFloat c) (raw_step 1 "search" [("query", VStr "nexus")]) ].

(** A plan of one [search] step, raw and validated. *)
Definition one_search_plan : list (gmap string value) :=
  [ raw_step 1 "search" [("query", VStr "nexus")] ].

Definition one_search_step : PlanStep :=
  {| step_id := 1; tool := "search";
     args := list_to_map [("query", VStr "nexus")];
     reason := None; confidence := None; retry := Some 0;
     requires_human := Some false |}.

(** The collaborators of the entry point when the agent backend is
    switched off, and when it is switched on but its constructor fails
    for a reason other than a missing import. *)
Definition native_ext : Executor.Externals nat :=
  {| Executor.langchain_enabled := false;
     Executor.config := default_config;
     Executor.LangChainRunner_init := Some (ImportError "LangChain is required");
     Executor.LangChainRunner_execute_plan :=
       fun _ _ _ _ => raise (RuntimeError "unavailable");
     Executor.uuid4_hex8 := fun w => ("0a1b2c3d", w);
     Executor.write_json := fun _ w => (None, w) |}.

Definition broken_agent_ext : Executor.Externals nat :=
  {| Executor.langchain_enabled := true;
     Executor.config := default_config;
     Executor.LangChainRunner_init := Some (ValueError "invalid literal for int()");
     Executor.LangChainRunner_execute_plan :=
       fun _ _ _ _ => raise (RuntimeError "unavailable");
     Executor.uuid4_hex8 := fun w => ("0a1b2c3d", w);
     Executor.write_json := fun _ w => (None, w) |}.

(** An agent that answers every step with the name of its tool. *)
Definition echo_agent : LangChainRunner.Agent nat :=
  {| LangChainRunner.from_template := None;
     LangChainRunner.create_agent_executor := fun _ => None;
     LangChainRunner.invoke := fun step _ w => (inr (Some (VStr (tool step))), S w) |}.

(** A result with an ['ok'] step and a failed one. *)
Definition fetched_step_result : ExecutionStepResult :=
  {| sr_step_id := 1; sr_status := ok; sr_output := VStr "<html></html>";
     sr_error_message := None; sr_finished := true; retry_count := 0 |}.

Definition mixed_result : ExecutionResult :=
  {| task_id := "task_1"; status := error;
     steps := [ fetched_step_result;
                {| sr_step_id := 2; sr_status := error; sr_output := VNone;
                   sr_error_message := Some "Tool execution failed: boom";
                   sr_finished := true; retry_count := 1 |} ];
     finished := true; error_message := Some "Step 2 failed: Tool execution failed: boom";
     session_id := None |}.

End Samples.

(** ** Vocabulary of the properties *)

Module Spec.

Import CustomRunner.

(** The state after [notify]. *)
Definition notified {W : Type} (on_update : bool) (id : Z) (st : Status) (payload : value)
    (s : State W) : State W :=
  if on_update
  then log_update {| up_step_id := id; up_status := st; up_payload := payload |} s
  else s.

(** Whether a first failure of the step is followed by another attempt:
    [may_retry] when [step_result] is fresh. *)
Definition retry_allowed (step : PlanStep) : bool :=
  match retry step with
  | None => false
  | Some n => negb (n =? 0)%Z && (0 <? n)%Z
  end.

(** The step result as the loop body creates it, and after the retry
    counter was incremented once. *)
Definition fresh_step_result (step : PlanStep) : ExecutionStepResult :=
  ExecutionStepResult_init (step_id step) running.

Definition retried_step_result (step : PlanStep) : ExecutionStepResult :=
  incr_retry_count (fresh_step_result step).

(** The terminal status of a step that has given up. *)
Definition failure_status (step : PlanStep) : Status :=
  if needs_human step then paused else error.

(** The result [execute_plan] returns when a step gives up with
    [error_msg], [sr] being the step result at that point. *)
Definition gave_up (step : PlanStep) (sr : ExecutionStepResult) (result : ExecutionResult)
    (error_msg : string) : ExecutionResult :=
  if needs_human step then
    mark_finished paused
      (Some ("Step " ++ str_of_int (step_id step) ++ " requires human intervention"))
      (append_step
         (step_mark_finished paused VNone
            (Some ("Human intervention required: " ++ error_msg)) sr) result)
  else
    mark_finished error
      (Some ("Step " ++ str_of_int (step_id step) ++ " failed: " ++ error_msg))
      (append_step (step_mark_finished error VNone (Some error_msg) sr) result).

(** The keyword arguments a step's tool is called with. *)
Definition call_arguments (step : PlanStep) (context : Context_) : gmap string value :=
  if String.eqb (tool step) "extract" && bool_decide (args step !! "html" = None)
  then inject_html context (args step)
  else args step.

(** The result a flow carries. *)
Definition flow_result (flow : Flow) : ExecutionResult :=
  match flow with
  | Continue result _ => result
  | Return result => result
  end.

(** An attempt failed: the wait for the tool call ended with an
    exception, raised by the tool or by the timeout. *)
Definition attempt_fails (T : Z) (inv : Invocation) : Prop :=
  exists e, future_result T inv = inl e.

(** From world [w] the tool [f], called with [args], fails on exactly
    its next [r] invocations and returns [v] on the one after. *)
Fixpoint fails_then_succeeds {W : Type} (f : tool_func W) (args : gmap string value) (T : Z)
    (r : nat) (w : W) (v : value) : Prop :=
  match r with
  | O => exists inv w', f args w = (inv, w') /\ future_result T inv = inr v
  | S k =>
      exists inv w', f args w = (inv, w') /\ attempt_fails T inv
                     /\ fails_then_succeeds f args T k w' v
  end.

(** Every step result so far is ['ok']. *)
Definition all_ok (l : list ExecutionStepResult) : Prop :=
  Forall (fun sr => sr_status sr = ok) l.

(** A message that [mark_finished] would store. *)
Definition populated (m : option string) : Prop :=
  exists t, m = Some t /\ t <> "".

(** What a result of the native runner looks like: either every step
    result is ['ok'] and so is the run, or the last step result is
    ['error'] or ['paused'], every earlier one is ['ok'], and the run has
    the status of the last step together with a message; a plan that
    did not validate gives ['error'] with no step result. *)
Inductive run_shape (r : ExecutionResult) : Prop :=
  | shape_ok :
      status r = ok -> all_ok (steps r) -> run_shape r
  | shape_stopped (pre : list ExecutionStepResult) (sr : ExecutionStepResult) :
      steps r = (pre ++ [sr])%list -> all_ok pre ->
      sr_status sr = error \/ sr_status sr = paused ->
      status r = sr_status sr ->
      populated (sr_error_message sr) -> populated (error_message r) ->
      run_shape r
  | shape_rejected :
      status r = error -> steps r = [] -> populated (error_message r) -> run_shape r.

(** What the outside can tell of a step result or of a run once error
    texts are set aside. *)
Definition step_outline (sr : ExecutionStepResult) : Z * Status * value * Z * bool :=
  (sr_step_id sr, sr_status sr, sr_output sr, retry_count sr, sr_finished sr).

Definition outline (r : ExecutionResult) : Status * list (Z * Status * value * Z * bool) * bool :=
  (status r, map step_outline (steps r), finished r).

Definition update_outline (u : Update) : Z * Status :=
  (up_step_id u, up_status u).

(** [f] with every overrun of the time budget [T] replaced by an
    exception the tool raises in time; the effect on the world is
    unchanged. *)
Definition raising_instead (T : Z) {W : Type} (f : tool_func W) : tool_func W :=
  fun args w =>
    let '(inv, w') := f args w in
    (if Qle_bool (elapsed inv) (inject_Z T) then inv
     else {| outcome := inl (OtherException "tool error"); elapsed := 0 |}, w').

Definition raising_registry (T : Z) {W : Type} (registry : ToolRegistry W) : ToolRegistry W :=
  map (fun '(name, e) =>
         (name, {| function := raising_instead T (function e);
                   description := description e |})) registry.

(** A raw step that names a tool outside the closed set. *)
Definition names_unknown_tool (raw : gmap string value) : Prop :=
  exists v, raw !! "tool" = Some v /\ forall t, t ∈ TOOL_NAMES -> v <> VStr t.

(** A raw step whose arguments lack a name its tool requires. *)
Definition omits_required_arg {pyd : Pydantic} (raw : gmap string value) : Prop :=
  exists t a d required arg,
    raw !! "tool" = Some (VStr t) /\ raw !! "args" = Some a /\ dict_validator a = Some d
    /\ dict_get t required_args = Some required /\ arg ∈ required /\ d !! arg = None.

(** A raw step whose confidence is a number outside [0, 1]. *)
Definition confidence_out_of_range {pyd : Pydantic} (raw : gmap string value) : Prop :=
  exists v q, raw !! "confidence" = Some v /\ v <> VNone /\ float_validator v = Some q
              /\ (q < 0 \/ 1 < q)%Q.

(** The result of a plan that did not validate. *)
Definition rejected (r : ExecutionResult) : Prop :=
  status r = error /\ steps r = [] /\ finished r = true
  /\ exists t, error_message r = Some ("Invalid plan format: " ++ t).

(** The text of the error a timed-out attempt raises. *)
Definition timeout_message (self : Config) (step : PlanStep) : string :=
  "Step " ++ str_of_int (step_id step) ++ " timed out after "
    ++ str_of_int (step_timeout self) ++ " seconds".

(** The exception [_execute_step] raises when the wait for the tool
    call ended with [e]. *)
Definition attempt_error (self : Config) (step : PlanStep) (e : exn) : exn :=
  match e with
  | FutureTimeoutError => RuntimeError (timeout_message self step)
  | _ => RuntimeError ("Tool execution failed: " ++ str_exn e)
  end.

(** The exception [_execute_step] raises when the registry has no tool
    of the step's name. *)
Definition unavailable_error {W : Type} (registry : ToolRegistry W) (step : PlanStep) : exn :=
  RuntimeError ("Tool not available: " ++ "Tool '" ++ tool step
                  ++ "' not found. Available tools: "
                  ++ repr_str_list (dict_keys registry)).

(** The state after a tool call was made and left the world as [w']. *)
Definition after_call {W : Type} (step : PlanStep) (context : Context_) (w' : W)
    (s : State W) : State W :=
  set_world w'
    (log_call {| call_tool := tool step; call_args := call_arguments step context |} s).

(** The step results [after] extend [before] by the results of a prefix
    of the validated plan, in plan order, and every tool call in
    [new_calls] was made for a step of that prefix. *)
Definition attempted_prefix (validated : list PlanStep)
    (before after : list ExecutionStepResult) (new_calls : list Call) : Prop :=
  exists k : nat,
    (k <= length validated)%nat
    /\ map sr_step_id after = (map sr_step_id before ++ map step_id (take k validated))%list
    /\ Forall (fun c => exists st, st ∈ take k validated /\ call_tool c = tool st) new_calls.

(** A step result with at most one retry on record. *)
Definition at_most_one_retry (sr : ExecutionStepResult) : Prop :=
  retry_count sr = 0 \/ retry_count sr = 1.

(** What one pass of the loop body leaves behind: one more step result,
    for this step, finished, with at most one retry on record; the loop
    goes on exactly when that step result is ['ok'], and otherwise the
    run has taken the step's terminal status and carries a message. *)
Inductive step_post (step : PlanStep) (result : ExecutionResult) : Flow -> Prop :=
  | post_continue (sr : ExecutionStepResult) (r' : ExecutionResult) (ctx' : Context_) :
      steps r' = (steps result ++ [sr])%list ->
      sr_step_id sr = step_id step -> sr_finished sr = true -> at_most_one_retry sr ->
      sr_status sr = ok ->
      status r' = status result -> error_message r' = error_message result ->
      step_post step result (Continue r' ctx')
  | post_return (sr : ExecutionStepResult) (r' : ExecutionResult) :
      steps r' = (steps result ++ [sr])%list ->
      sr_step_id sr = step_id step -> sr_finished sr = true -> at_most_one_retry sr ->
      sr_status sr = error \/ sr_status sr = paused ->
      status r' = sr_status sr -> finished r' = true ->
      populated (sr_error_message sr) -> populated (error_message r') ->
      step_post step result (Return r').

(** The step with another retry budget. *)
Definition with_retry (n : option Z) (step : PlanStep) : PlanStep :=
  {| step_id := step_id step; tool := tool step; args := args step;
     reason := reason step; confidence := confidence step; retry := n;
     requires_human := requires_human step |}.

(** The retry budget of a step, [None] counting as none. *)
Definition retry_budget (step : PlanStep) : Z :=
  match retry step with
  | Some n => n
  | None => 0
  end.

(** The record of the tool call an attempt of [step] makes. *)
Definition call_of (step : PlanStep) (context : Context_) : Call :=
  {| call_tool := tool step; call_args := call_arguments step context |}.

(** No value of the context looks like markup. *)
Definition no_markup (context : Context_) : Prop :=
  Forall (fun kv => looks_like_markup (snd kv) = false) context.

(** Two states that differ at most in the payloads handed to the
    progress callback. *)
Definition same_trace {W : Type} (s1 s2 : State W) : Prop :=
  world s1 = world s2 /\ calls s1 = calls s2 /\ slept s1 = slept s2
  /\ map update_outline (updates s1) = map update_outline (updates s2).

(** Two flows that differ at most in error texts. *)
Definition same_flow (f1 f2 : Flow) : Prop :=
  match f1, f2 with
  | Continue r1 c1, Continue r2 c2 => outline r1 = outline r2 /\ c1 = c2
  | Return r1, Return r2 => outline r1 = outline r2
  | _, _ => False
  end.

(** Two attempts that agree on whether they failed and on what they
    returned. *)
Definition same_attempt (x1 x2 : exn + value) : Prop :=
  match x1, x2 with
  | inr v1, inr v2 => v1 = v2
  | inl _, inl _ => True
  | _, _ => False
  end.

(** The configuration under which [get_runner] hands out the native
    runner: the agent backend is not asked for, or it is asked for, not
    built yet, and its constructor raises [ImportError]. *)
Definition native_backend {W : Type} (ext : Executor.Externals W) (s : State W) : Prop :=
  Executor.langchain_enabled ext = false
  \/ (Executor.langchain_enabled ext = true /\ langchain_runner_built s = false
      /\ exists m, Executor.LangChainRunner_init ext = Some (ImportError m)).

(** The retries a list of step results has on record. *)
Definition total_retries (l : list ExecutionStepResult) : Z :=
  foldr (fun sr acc => retry_count sr + acc) 0 l.

(** The progress reports a list of step results stands for: for each,
    ['running'] and then the status it ended in. *)
Definition expected_updates (l : list ExecutionStepResult) : list (Z * Status) :=
  flat_map (fun sr => [(sr_step_id sr, running); (sr_step_id sr, sr_status sr)]) l.

(** The registry has a tool of the step's name. *)
Definition resolvable {W : Type} (registry : ToolRegistry W) (step : PlanStep) : Prop :=
  exists entry, dict_get (tool step) registry = Some entry.

(** The names of the fields of [PlanStep]. *)
Definition FIELD_NAMES : list string :=
  ["step_id"; "tool"; "args"; "reason"; "confidence"; "retry"; "requires_human"].

(** The arguments have every name the tool requires. *)
Definition has_required_args (t : string) (a : gmap string value) : Prop :=
  forall required, dict_get t required_args = Some required ->
                   Forall (fun k => is_Some (a !! k)) required.

(** One round of the comprehension in [get_step_outputs]. *)
Definition collect_output (d : gmap Z value) (step : ExecutionStepResult) : gmap Z value :=
  if bool_decide (sr_status step = ok)
     && match sr_output step with VNone => false | _ => true end
  then <[sr_step_id step := sr_output step]> d
  else d.

(** [agent_result.get("output", "No output")] *)
Definition agent_output (agent_result : option value) : value :=
  match agent_result with
  | Some v => v
  | None => VStr "No output"
  end.

(** The result the agent runner returns when [invoke] raised [e] for
    [step]. *)
Definition agent_stopped (step : PlanStep) (result : ExecutionResult) (e : exn)
    : ExecutionResult :=
  let error_msg := "LangChain execution failed: " ++ str_exn e in
  if needs_human step then
    mark_finished paused
      (Some ("Step " ++ str_of_int (step_id step) ++ " requires human intervention"))
      (append_step (step_mark_finished paused VNone (Some error_msg)
                      (fresh_step_result step)) result)
  else
    mark_finished error
      (Some ("Step " ++ str_of_int (step_id step) ++ " failed: " ++ error_msg))
      (append_step (step_mark_finished error VNone (Some error_msg)
                      (fresh_step_result step)) result).

(** The progress reports the agent runner makes for a list of step
    results: ['running'] for each, and ['ok'] for those that ended so. *)
Definition agent_updates (l : list ExecutionStepResult) : list (Z * Status) :=
  flat_map (fun sr =>
              if bool_decide (sr_status sr = ok)
              then [(sr_step_id sr, running); (sr_step_id sr, ok)]
              else [(sr_step_id sr, running)]) l.

(** Newest first: along the list modification times do not grow. *)
Definition newest_first (mtime : string -> Q) (paths : list string) : Prop :=
  StronglySorted (fun p q => (mtime q <= mtime p)%Q) paths.

(** The path [get_execution_history] builds for a name of the output
    directory. *)
Definition history_path (fs : Executor.OutputDir) (name : string) : string :=
  Executor.path_join fs (Executor.output_dir fs) name.

(** A name of the output directory that counts as a result file. *)
Definition result_file (fs : Executor.OutputDir) (name : string) : Prop :=
  name ∈ Executor.listdir fs /\ Executor.endswith name ".json" = true.

(** The order [get_execution_history] sorts by. *)
Definition by_mtime (x y : string * Q) : Prop := (snd y <= snd x)%Q.

(** What [execute_simple_plan] makes of one instruction, once
    validated: a [search] with a query or an [open] with a URL that
    starts with [http], the instruction as reason, confidence 0.8, no
    retry and no human. *)
Definition simple_step_shape (instruction : string) (st : PlanStep) : Prop :=
  reason st = Some instruction
  /\ confidence st = Some Executor.confidence_0_8
  /\ retry st = Some 0 /\ requires_human st = Some false
  /\ ((tool st = "search" /\ exists q, args st = {[ "query" := VStr q ]})
      \/ (tool st = "open"
          /\ exists u, args st = {[ "url" := VStr u ]} /\ String.prefix "http" u = true)).

End Spec.

(** ** Properties *)

Module Facts.

Import CustomRunner Spec.

Lemma update_last_snoc {A : Type} (f : A -> A) (l : list A) (x : A) :
  update_last f (l ++ [x])%list = (l ++ [f x])%list.
Proof.
  induction l as [|y l IH]; [reflexivity|].
  cbn [app update_last]. rewrite IH.
  destruct l; reflexivity.
Qed.

Lemma with_step_result_append f sr result :
  with_step_result f (append_step sr result) = append_step (f sr) result.
Proof.
  unfold with_step_result, append_step; cbn. now rewrite update_last_snoc.
Qed.

Lemma current_retry_count_append sr result :
  current_retry_count (append_step sr result) = retry_count sr.
Proof.
  unfold current_retry_count, append_step; cbn. now rewrite last_snoc.
Qed.

Lemma may_retry_fresh step result :
  may_retry step (append_step (fresh_step_result step) result) = retry_allowed step.
Proof.
  unfold may_retry, retry_allowed. now rewrite current_retry_count_append.
Qed.

Lemma retry_allowed_iff step :
  retry_allowed step = true <-> exists n, retry step = Some n /\ 1 <= n.
Proof.
  unfold retry_allowed. destruct (retry step) as [n|].
  - split.
    + intros H. exists n. split; [reflexivity|].
      apply andb_true_iff in H as [_ H]. apply Z.ltb_lt in H. lia.
    + intros (m & [= <-] & Hm). apply andb_true_iff. split.
      * apply negb_true_iff, Z.eqb_neq. lia.
      * apply Z.ltb_lt. lia.
  - split; [discriminate|]. now intros (n & H & _).
Qed.

Section RunnerFacts.
Context {W : Type} {pyd : Pydantic}.
Variable registry : ToolRegistry W.
Variable self : Config.

Lemma notify_eq on_update id st payload (s : State W) :
  notify on_update id st payload s = (inr tt, notified on_update id st payload s).
Proof. unfold notify, notified. now destruct on_update. Qed.

Lemma stop_run_eq on_update step sr result error_msg (s : State W) :
  stop_run on_update step (append_step sr result) error_msg s =
  (inr (Return (gave_up step sr result error_msg)),
   notified on_update (step_id step) (failure_status step) (VStr error_msg) s).
Proof.
  unfold stop_run, gave_up, failure_status.
  destruct (needs_human step); unfold bind; rewrite notify_eq;
    now rewrite with_step_result_append.
Qed.

(** The loop body, by the outcome of its one or two attempts. *)
Lemma run_step_eq on_update step result ctx (s : State W) :
  run_step registry self on_update step result ctx s =
  match _execute_step registry self step ctx
          (notified on_update (step_id step) running VNone s) with
  | (inr output, s1) =>
      (inr (Continue
              (append_step (step_mark_finished ok output None (fresh_step_result step))
                 result)
              (dict_set (output_key step) output ctx)),
       notified on_update (step_id step) ok output s1)
  | (inl e, s1) =>
      if retry_allowed step then
        match _execute_step registry self step ctx (add_slept 1 s1) with
        | (inr output, s2) =>
            (inr (Continue
                    (append_step
                       (step_mark_finished ok output None (retried_step_result step))
                       result)
                    (dict_set (output_key step) output ctx)),
             notified on_update (step_id step) ok output s2)
        | (inl e2, s2) =>
            (inr (Return (gave_up step (retried_step_result step) result
                            ("Step failed after 1 retries: " ++ str_exn e2))),
             notified on_update (step_id step) (failure_status step)
               (VStr ("Step failed after 1 retries: " ++ str_exn e2)) s2)
        end
      else
        (inr (Return (gave_up step (fresh_step_result step) result (str_exn e))),
         notified on_update (step_id step) (failure_status step) (VStr (str_exn e)) s1)
  end.
Proof.
  unfold run_step, bind at 1, try_except at 1. rewrite notify_eq.
  unfold bind at 1.
  destruct (_execute_step registry self step ctx _) as [[e|output] s1].
  - rewrite may_retry_fresh. destruct (retry_allowed step).
    + rewrite with_step_result_append. unfold try_except, bind at 1, sleep, modify.
      unfold bind at 1.
      destruct (_execute_step registry self step ctx _) as [[e2|output] s2].
      * rewrite current_retry_count_append. now rewrite stop_run_eq.
      * unfold bind. rewrite notify_eq. now rewrite with_step_result_append.
    + now rewrite stop_run_eq.
  - unfold bind. rewrite notify_eq. now rewrite with_step_result_append.
Qed.

(** One attempt, by what the registry and the tool do. *)
Lemma _execute_step_eq step ctx (s : State W) :
  _execute_step registry self step ctx s =
  match dict_get (tool step) registry with
  | None => (inl (unavailable_error registry step), s)
  | Some entry =>
      let '(inv, w') := function entry (call_arguments step ctx) (world s) in
      match future_result (step_timeout self) inv with
      | inr v => (inr v, after_call step ctx w' s)
      | inl e => (inl (attempt_error self step e), after_call step ctx w' s)
      end
  end.
Proof.
  unfold _execute_step, bind at 1, try_except, get_tool.
  destruct (dict_get (tool step) registry) as [entry|]; [|reflexivity].
  cbn [ret raise]. unfold bind, submit, after_call, call_arguments.
  destruct (function entry _ (world s)) as [inv w'].
  destruct (future_result (step_timeout self) inv) as [[]|]; reflexivity.
Qed.

Lemma attempt_error_populated step e :
  exists m, attempt_error self step e = RuntimeError m /\ m <> "".
Proof.
  destruct e; cbn; eexists; (split; [reflexivity|discriminate]).
Qed.

(** Whatever an attempt raises is a [RuntimeError] with a text. *)
Lemma _execute_step_raises step ctx (s s' : State W) e :
  _execute_step registry self step ctx s = (inl e, s') ->
  exists m, e = RuntimeError m /\ m <> "".
Proof.
  rewrite _execute_step_eq.
  destruct (dict_get (tool step) registry) as [entry|].
  - destruct (function entry _ _) as [inv w'].
    destruct (future_result _ inv) as [e0|]; [|discriminate].
    intros [= <- _]. apply attempt_error_populated.
  - intros [= <- _]. eexists. split; [reflexivity|discriminate].
Qed.

(** An attempt makes at most one tool call, for the step's tool. *)
Lemma _execute_step_calls step ctx (s s' : State W) x :
  _execute_step registry self step ctx s = (x, s') ->
  slept s' = slept s /\ updates s' = updates s /\
  exists new, calls s' = (calls s ++ new)%list
              /\ Forall (fun c => call_tool c = tool step) new.
Proof.
  rewrite _execute_step_eq.
  destruct (dict_get (tool step) registry) as [entry|].
  - destruct (function entry _ _) as [inv w'].
    destruct (future_result _ inv); intros [= _ <-]; (do 2 (split; [reflexivity|]));
      eexists; (split; [reflexivity|]); now repeat constructor.
  - intros [= _ <-]. do 2 (split; [reflexivity|]).
    exists []. split; [now rewrite app_nil_r|constructor].
Qed.

Lemma calls_notified on_update id st payload (s : State W) :
  calls (notified on_update id st payload s) = calls s.
Proof. unfold notified. now destruct on_update. Qed.

Lemma world_notified on_update id st payload (s : State W) :
  world (notified on_update id st payload s) = world s.
Proof. unfold notified. now destruct on_update. Qed.

Lemma slept_notified on_update id st payload (s : State W) :
  slept (notified on_update id st payload s) = slept s.
Proof. unfold notified. now destruct on_update. Qed.

Lemma populated_prefix a p t old :
  populated (set_if_truthy (Some (String a p ++ t)) old).
Proof. cbn [String.append set_if_truthy]. eexists. split; [reflexivity|discriminate]. Qed.

Lemma populated_text m old : m <> "" -> populated (set_if_truthy (Some m) old).
Proof. destruct m; [congruence|]. intros _. eexists. split; [reflexivity|discriminate]. Qed.

Lemma gave_up_post step sr result error_msg :
  sr_step_id sr = step_id step -> at_most_one_retry sr -> error_msg <> "" ->
  step_post step result (Return (gave_up step sr result error_msg)).
Proof.
  intros Hid Hrc Hmsg. unfold gave_up.
  destruct (needs_human step).
  - eapply post_return with (sr := step_mark_finished paused VNone _ sr);
      try reflexivity; try assumption.
    + now right.
    + apply populated_prefix.
    + apply populated_prefix.
  - eapply post_return with (sr := step_mark_finished error VNone _ sr);
      try reflexivity; try assumption.
    + now left.
    + now apply populated_text.
    + apply populated_prefix.
Qed.

Lemma retried_message_populated e : "Step failed after 1 retries: " ++ str_exn e <> "".
Proof. discriminate. Qed.

(** The loop body returns a flow, whatever the tool does; no
    exception leaves it. *)
Lemma run_step_post on_update step result ctx (s : State W) :
  exists flow s',
    run_step registry self on_update step result ctx s = (inr flow, s')
    /\ step_post step result flow
    /\ exists new, calls s' = (calls s ++ new)%list
                   /\ Forall (fun c => call_tool c = tool step) new.
Proof.
  rewrite run_step_eq.
  destruct (_execute_step registry self step ctx _) as [[e|output] s1] eqn:E1.
  - pose proof (_execute_step_raises _ _ _ _ _ E1) as (m & -> & Hm).
    apply _execute_step_calls in E1 as (_ & _ & new1 & Hc1 & Hf1).
    rewrite calls_notified in Hc1.
    destruct (retry_allowed step).
    + destruct (_execute_step registry self step ctx (add_slept 1 s1))
        as [[e2|output] s2] eqn:E2.
      * apply _execute_step_calls in E2 as (_ & _ & new2 & Hc2 & Hf2).
        do 2 eexists. split; [reflexivity|]. split.
        -- apply gave_up_post; [reflexivity|now right|apply retried_message_populated].
        -- exists (new1 ++ new2)%list. rewrite calls_notified, Hc2. cbn [add_slept calls].
           rewrite Hc1, app_assoc. split; [reflexivity|]. now apply Forall_app.
      * apply _execute_step_calls in E2 as (_ & _ & new2 & Hc2 & Hf2).
        do 2 eexists. split; [reflexivity|]. split.
        -- eapply post_continue
             with (sr := step_mark_finished ok output None (retried_step_result step));
             try reflexivity. now right.
        -- exists (new1 ++ new2)%list. rewrite calls_notified, Hc2. cbn [add_slept calls].
           rewrite Hc1, app_assoc. split; [reflexivity|]. now apply Forall_app.
    + do 2 eexists. split; [reflexivity|]. split.
      * apply gave_up_post; [reflexivity|now left|exact Hm].
      * exists new1. now rewrite calls_notified.
  - apply _execute_step_calls in E1 as (_ & _ & new1 & Hc1 & Hf1).
    rewrite calls_notified in Hc1.
    do 2 eexists. split; [reflexivity|]. split.
    + eapply post_continue
        with (sr := step_mark_finished ok output None (fresh_step_result step));
        try reflexivity. now left.
    + exists new1. now rewrite calls_notified.
Qed.

Lemma attempted_prefix_refl validated before :
  attempted_prefix validated before before [].
Proof.
  exists 0%nat. split; [lia|]. split; [now rewrite take_0, app_nil_r|constructor].
Qed.

Lemma attempted_prefix_stop step rest before sr new :
  sr_step_id sr = step_id step ->
  Forall (fun c => call_tool c = tool step) new ->
  attempted_prefix (step :: rest) before (before ++ [sr])%list new.
Proof.
  intros Hid Hnew. exists 1%nat. split; [cbn; lia|]. split.
  - rewrite map_app. cbn. now rewrite take_0, Hid.
  - eapply Forall_impl; [exact Hnew|]. intros c Hc. exists step. split; [|exact Hc].
    cbn. left.
Qed.

Lemma attempted_prefix_step step rest before sr after new1 new2 :
  sr_step_id sr = step_id step ->
  Forall (fun c => call_tool c = tool step) new1 ->
  attempted_prefix rest (before ++ [sr])%list after new2 ->
  attempted_prefix (step :: rest) before after (new1 ++ new2)%list.
Proof.
  intros Hid Hnew1 (k & Hk & Hids & Hnew2). exists (S k). split; [cbn; lia|]. split.
  - rewrite Hids, map_app. cbn. now rewrite Hid, <- app_assoc.
  - apply Forall_app. split.
    + eapply Forall_impl; [exact Hnew1|]. intros c Hc. exists step. split; [|exact Hc].
      cbn. left.
    + eapply Forall_impl; [exact Hnew2|]. intros c (st & Hst & Hc). exists st.
      split; [|exact Hc]. cbn. now right.
Qed.

(** The loop: it returns a result of the expected shape, with the
    step results of a prefix of the plan. *)
Lemma run_steps_post on_update validated :
  forall result ctx (s : State W),
    all_ok (steps result) -> Forall at_most_one_retry (steps result) ->
    exists r s',
      run_steps registry self on_update validated result ctx s = (inr r, s')
      /\ run_shape r /\ finished r = true
      /\ Forall at_most_one_retry (steps r)
      /\ exists new, calls s' = (calls s ++ new)%list
                     /\ attempted_prefix validated (steps result) (steps r) new.
Proof.
  induction validated as [|step rest IH]; intros result ctx s Hok Hrc.
  - do 2 eexists. split; [reflexivity|]. split; [now apply shape_ok|].
    split; [reflexivity|]. split; [exact Hrc|].
    exists []. split; [now rewrite app_nil_r|apply attempted_prefix_refl].
  - cbn [run_steps]. unfold bind.
    destruct (run_step_post on_update step result ctx s)
      as (flow & s1 & -> & Hpost & new1 & Hc1 & Hf1).
    destruct Hpost as [sr r' ctx' Hsteps Hid Hfin Hone Hst Hstatus Hmsg
                      |sr r' Hsteps Hid Hfin Hone Hst Hstatus Hdone Hsrmsg Hmsg].
    + destruct (IH r' ctx' s1) as (r & s' & Hrun & Hshape & Hfinished & Hrcs & new2 & Hc2 & Hpre).
      * rewrite Hsteps. apply Forall_app. split; [exact Hok|now constructor].
      * rewrite Hsteps. apply Forall_app. split; [exact Hrc|now constructor].
      * exists r, s'. split; [exact Hrun|]. split; [exact Hshape|].
        split; [exact Hfinished|]. split; [exact Hrcs|].
        exists (new1 ++ new2)%list. split; [now rewrite Hc2, Hc1, app_assoc|].
        rewrite Hsteps in Hpre. now apply attempted_prefix_step with (sr := sr).
    + exists r', s1. split; [reflexivity|]. split.
      * now apply shape_stopped with (pre := steps result) (sr := sr).
      * split; [exact Hdone|]. split.
        -- rewrite Hsteps. apply Forall_app. split; [exact Hrc|now constructor].
        -- exists new1. split; [exact Hc1|]. rewrite Hsteps.
           now apply attempted_prefix_stop.
Qed.

(** [execute_plan] returns a result, never an exception. *)
Lemma execute_plan_post plan_steps tid sid on_update (s : State W) :
  exists r s',
    execute_plan registry self plan_steps tid sid on_update s = (inr r, s')
    /\ run_shape r /\ finished r = true
    /\ Forall at_most_one_retry (steps r)
    /\ exists new, calls s' = (calls s ++ new)%list
         /\ forall validated, validate_steps plan_steps = inr validated ->
              attempted_prefix validated [] (steps r) new.
Proof.
  unfold execute_plan.
  destruct (validate_steps plan_steps) as [errs|validated].
  - do 2 eexists. split; [reflexivity|]. split.
    + apply shape_rejected; [reflexivity|reflexivity|]. apply populated_prefix.
    + split; [reflexivity|]. split; [constructor|].
      exists []. split; [now rewrite app_nil_r|discriminate].
  - destruct (run_steps_post on_update validated
                (ExecutionResult_init tid running sid) [] s)
      as (r & s' & Hrun & Hshape & Hfin & Hrc & new & Hc & Hpre);
      [constructor|constructor|].
    exists r, s'. split; [exact Hrun|]. split; [exact Hshape|]. split; [exact Hfin|].
    split; [exact Hrc|]. exists new. split; [exact Hc|].
    now intros ? [= <-].
Qed.

(** C3.  Fail-stop: the native runner returns a result in which a
    step result with status ['error'] or ['paused'] is the last one;
    the step results are those of a prefix of the plan, in order, and
    every tool call of the run was made for a step of that prefix, so
    the steps after the one that stopped were never attempted. *)
Theorem fail_stop plan_steps tid sid on_update (s : State W) :
  exists r s',
    execute_plan registry self plan_steps tid sid on_update s = (inr r, s')
    /\ (forall (i : nat) sr,
          steps r !! i = Some sr -> sr_status sr = error \/ sr_status sr = paused ->
          length (steps r) = S i)
    /\ exists new, calls s' = (calls s ++ new)%list
         /\ forall validated, validate_steps plan_steps = inr validated ->
              attempted_prefix validated [] (steps r) new.
Proof.
  destruct (execute_plan_post plan_steps tid sid on_update s)
    as (r & s' & Hrun & Hshape & _ & _ & Hcalls).
  exists r, s'. split; [exact Hrun|]. split; [|exact Hcalls].
  intros i sr Hi Hbad.
  destruct Hshape as [_ Hok|pre last Hsteps Hok _ _ _ _|_ Hnil _].
  - eapply Forall_lookup_1 in Hok; [|exact Hi]. cbn in Hok.
    destruct Hbad as [Hb|Hb]; rewrite Hb in Hok; discriminate.
  - rewrite Hsteps in Hi |- *. rewrite length_app. cbn.
    destruct (decide (i < length pre)%nat) as [Hlt|Hge].
    + rewrite lookup_app_l in Hi by exact Hlt.
      eapply Forall_lookup_1 in Hok; [|exact Hi]. cbn in Hok.
      destruct Hbad as [Hb|Hb]; rewrite Hb in Hok; discriminate.
    + apply lookup_lt_Some in Hi. rewrite length_app in Hi. cbn in Hi. lia.
  - rewrite Hnil in Hi. discriminate.
Qed.


(** C10.  In the result of the native runner every step result has a
    retry count of 0 or 1, whatever retry budgets the plan declares. *)
Theorem retry_count_at_most_one plan_steps tid sid on_update (s : State W) :
  exists r s',
    execute_plan registry self plan_steps tid sid on_update s = (inr r, s')
    /\ Forall (fun sr => 0 <= retry_count sr <= 1) (steps r).
Proof.
  destruct (execute_plan_post plan_steps tid sid on_update s)
    as (r & s' & Hrun & _ & _ & Hrc & _).
  exists r, s'. split; [exact Hrun|].
  eapply Forall_impl; [exact Hrc|]. intros sr [-> | ->]; lia.
Qed.

Lemma gave_up_last step sr0 result msg :
  exists sr,
    last (steps (gave_up step sr0 result msg)) = Some sr
    /\ sr_status sr = failure_status step
    /\ retry_count sr = retry_count sr0
    /\ status (gave_up step sr0 result msg) = failure_status step.
Proof.
  unfold gave_up, failure_status. destruct (needs_human step);
    eexists; cbn [steps mark_finished append_step]; rewrite last_snoc;
    (split; [reflexivity|]); repeat split.
Qed.

Lemma _execute_step_fails step ctx (s : State W) entry inv w' :
  dict_get (tool step) registry = Some entry ->
  function entry (call_arguments step ctx) (world s) = (inv, w') ->
  attempt_fails (step_timeout self) inv ->
  exists e, _execute_step registry self step ctx s = (inl e, after_call step ctx w' s).
Proof.
  intros Hentry Hcall [e He]. rewrite _execute_step_eq, Hentry, Hcall, He.
  now eexists.
Qed.

Lemma _execute_step_succeeds step ctx (s : State W) entry inv w' v :
  dict_get (tool step) registry = Some entry ->
  function entry (call_arguments step ctx) (world s) = (inv, w') ->
  future_result (step_timeout self) inv = inr v ->
  _execute_step registry self step ctx s = (inr v, after_call step ctx w' s).
Proof.
  intros Hentry Hcall Hv. now rewrite _execute_step_eq, Hentry, Hcall, Hv.
Qed.

Lemma step_mark_finished_ok_output v sr :
  sr_output sr = VNone -> sr_output (step_mark_finished ok v None sr) = v.
Proof. intros H. cbn. rewrite H. now destruct v. Qed.

(** C1, as the runner has it.  Let a tool fail on exactly its first
    [r >= 1] invocations and return on the next.  When [r = 1] and the
    step's retry budget is 1, the step ends ['ok'] with
    [retry_count = 1] and the tool's value as output.  With retry
    budget [r - 1] the step gives up and the run stops: the step and
    the run are ['error'], or ['paused'] when the step has
    [requires_human] set. *)
Theorem retry_bound on_update step result ctx (s : State W) entry (r : nat) v :
  dict_get (tool step) registry = Some entry ->
  (1 <= r)%nat ->
  fails_then_succeeds (function entry) (call_arguments step ctx) (step_timeout self)
    r (world s) v ->
  (r = 1%nat ->
   exists r' ctx' s' sr,
     run_step registry self on_update (with_retry (Some 1) step) result ctx s
     = (inr (Continue r' ctx'), s')
     /\ last (steps r') = Some sr
     /\ sr_status sr = ok /\ retry_count sr = 1 /\ sr_output sr = v)
  /\ exists r' s' sr,
       run_step registry self on_update (with_retry (Some (Z.of_nat r - 1)) step)
         result ctx s
       = (inr (Return r'), s')
       /\ last (steps r') = Some sr
       /\ sr_status sr = failure_status step
       /\ status r' = failure_status step.
Proof.
  intros Hentry Hr Htool.
  destruct r as [|k]; [lia|]. cbn [fails_then_succeeds] in Htool.
  destruct Htool as (inv1 & w1 & Hcall1 & Hfail1 & Hrest).
  split.
  - intros [= ->]. destruct Hrest as (inv2 & w2 & Hcall2 & Hv).
    set (step1 := with_retry (Some 1) step).
    rewrite run_step_eq.
    destruct (_execute_step_fails step1 ctx
                (notified on_update (step_id step1) running VNone s) entry inv1 w1)
      as [e1 ->]; [exact Hentry|now rewrite world_notified|exact Hfail1|].
    change (retry_allowed step1) with true. cbn iota.
    rewrite (_execute_step_succeeds step1 ctx _ entry inv2 w2 v);
      [|exact Hentry|exact Hcall2|exact Hv].
    do 4 eexists. split; [reflexivity|]. cbn [steps append_step]. rewrite last_snoc.
    split; [reflexivity|]. split; [reflexivity|]. split; [reflexivity|].
    now apply step_mark_finished_ok_output.
  - set (step0 := with_retry (Some (Z.of_nat (S k) - 1)) step).
    assert (Hstatus0 : failure_status step0 = failure_status step) by reflexivity.
    rewrite run_step_eq.
    destruct (_execute_step_fails step0 ctx
                (notified on_update (step_id step0) running VNone s) entry inv1 w1)
      as [e1 ->]; [exact Hentry|now rewrite world_notified|exact Hfail1|].
    destruct (retry_allowed step0) eqn:Hretry.
    + apply retry_allowed_iff in Hretry as (n & [= <-] & Hn).
      destruct k as [|k]; [lia|]. cbn [fails_then_succeeds] in Hrest.
      destruct Hrest as (inv2 & w2 & Hcall2 & Hfail2 & _).
      destruct (_execute_step_fails step0 ctx
                  (add_slept 1 (after_call step0 ctx w1
                                  (notified on_update (step_id step0) running VNone s)))
                  entry inv2 w2)
        as [e2 ->]; [exact Hentry|exact Hcall2|exact Hfail2|].
      destruct (gave_up_last step0 (retried_step_result step0) result
                  ("Step failed after 1 retries: " ++ str_exn e2))
        as (sr & Hlast & Hst & _ & Hstatus).
      rewrite Hstatus0 in Hst, Hstatus.
      do 3 eexists. split; [reflexivity|]. split; [exact Hlast|]. split; assumption.
    + destruct (gave_up_last step0 (fresh_step_result step0) result (str_exn e1))
        as (sr & Hlast & Hst & _ & Hstatus).
      rewrite Hstatus0 in Hst, Hstatus.
      do 3 eexists. split; [reflexivity|]. split; [exact Hlast|]. split; assumption.
Qed.

Lemma _execute_step_unavailable step ctx (s : State W) :
  dict_get (tool step) registry = None ->
  _execute_step registry self step ctx s = (inl (unavailable_error registry step), s).
Proof. intros H. now rewrite _execute_step_eq, H. Qed.

Lemma retry_allowed_budget step : retry_allowed step = (1 <=? retry_budget step)%Z.
Proof.
  unfold retry_allowed, retry_budget. destruct (retry step) as [n|]; [|reflexivity].
  destruct (Z.leb_spec 1 n), (Z.ltb_spec 0 n), (Z.eqb_spec n 0); cbn; lia || reflexivity.
Qed.


Lemma inject_html_first pre key v post (a : gmap string value) :
  no_markup pre -> looks_like_markup v = true ->
  inject_html (pre ++ (key, v) :: post) a = <["html" := v]> a.
Proof.
  intros Hpre Hv. induction Hpre as [|[k x] pre Hx _ IH]; cbn.
  - now rewrite Hv.
  - cbn in Hx. now rewrite Hx.
Qed.

Lemma inject_html_head key v rest (a : gmap string value) :
  looks_like_markup v = true -> inject_html ((key, v) :: rest) a = <["html" := v]> a.
Proof. intros Hv. cbn. now rewrite Hv. Qed.

Lemma inject_html_none ctx (a : gmap string value) :
  no_markup ctx -> inject_html ctx a = a.
Proof.
  intros Hctx. induction Hctx as [|[k x] ctx Hx _ IH]; cbn; [reflexivity|].
  cbn in Hx. now rewrite Hx.
Qed.

Lemma call_arguments_extract step ctx :
  tool step = "extract" -> args step !! "html" = None ->
  call_arguments step ctx = inject_html ctx (args step).
Proof.
  intros Ht Hhtml. unfold call_arguments. rewrite Ht. cbn.
  now rewrite bool_decide_eq_true_2.
Qed.

Lemma call_arguments_other step ctx :
  tool step <> "extract" -> call_arguments step ctx = args step.
Proof.
  intros Ht. unfold call_arguments.
  destruct (String.eqb_spec (tool step) "extract"); [contradiction|reflexivity].
Qed.

(** An attempt of a step whose tool resolves makes exactly one call. *)
Lemma _execute_step_resolved step ctx (s : State W) entry :
  dict_get (tool step) registry = Some entry ->
  exists x s',
    _execute_step registry self step ctx s = (x, s')
    /\ calls s' = (calls s ++ [call_of step ctx])%list.
Proof.
  intros Hentry. rewrite _execute_step_eq, Hentry.
  destruct (function entry _ _) as [inv w'].
  destruct (future_result _ inv); do 2 eexists; split; reflexivity.
Qed.

(** The loop body of such a step calls the tool once or twice, with
    the same arguments. *)
Lemma run_step_resolved on_update step result ctx (s : State W) entry :
  dict_get (tool step) registry = Some entry ->
  exists flow s' tail,
    run_step registry self on_update step result ctx s = (inr flow, s')
    /\ calls s' = (calls s ++ call_of step ctx :: tail)%list
    /\ Forall (fun c => c = call_of step ctx) tail.
Proof.
  intros Hentry. rewrite run_step_eq.
  destruct (_execute_step_resolved step ctx
              (notified on_update (step_id step) running VNone s) entry Hentry)
    as ([e|output] & s1 & -> & Hc1); rewrite calls_notified in Hc1.
  - destruct (retry_allowed step).
    + destruct (_execute_step_resolved step ctx (add_slept 1 s1) entry Hentry)
        as ([e2|output] & s2 & -> & Hc2); cbn [add_slept calls] in Hc2;
        do 3 eexists; (split; [reflexivity|]); rewrite calls_notified, Hc2, Hc1, <- app_assoc;
        (split; [reflexivity|]); now repeat constructor.
    + do 3 eexists. split; [reflexivity|]. rewrite calls_notified, Hc1.
      split; [reflexivity|constructor].
  - do 3 eexists. split; [reflexivity|]. rewrite calls_notified, Hc1.
    split; [reflexivity|constructor].
Qed.

End RunnerFacts.

(** *** Timeouts against ordinary tool errors *)

Section TimeoutFacts.
Context {W : Type} {pyd : Pydantic}.
Variable registry : ToolRegistry W.
Variable self : Config.

Lemma dict_get_raising T name (reg : ToolRegistry W) :
  dict_get name (raising_registry T reg)
  = option_map (fun e => {| function := raising_instead T (function e);
                            description := description e |})
      (dict_get name reg).
Proof.
  induction reg as [|[k e] reg IH]; [reflexivity|].
  cbn. destruct (String.eqb name k); [reflexivity|exact IH].
Qed.

Lemma future_result_overrun T inv :
  (inject_Z T < elapsed inv)%Q -> future_result T inv = inl FutureTimeoutError.
Proof.
  intros Hlt. unfold future_result.
  destruct (Qle_bool (elapsed inv) (inject_Z T)) eqn:Hle; [|reflexivity].
  apply Qle_bool_iff in Hle. now apply Qlt_not_le in Hlt.
Qed.

Lemma same_trace_refl (s : State W) : same_trace s s.
Proof. now repeat split. Qed.

Lemma same_trace_notified on_update id st p1 p2 (s1 s2 : State W) :
  same_trace s1 s2 ->
  same_trace (notified on_update id st p1 s1) (notified on_update id st p2 s2).
Proof.
  intros (Hw & Hc & Hs & Hu). unfold notified. destruct on_update; [|now repeat split].
  repeat split; cbn; try assumption. rewrite !map_app. cbn. now rewrite Hu.
Qed.

Lemma same_trace_slept n (s1 s2 : State W) :
  same_trace s1 s2 -> same_trace (add_slept n s1) (add_slept n s2).
Proof. intros (Hw & Hc & Hs & Hu). repeat split; cbn; congruence. Qed.

Lemma same_trace_call step ctx w' (s1 s2 : State W) :
  same_trace s1 s2 -> same_trace (after_call step ctx w' s1) (after_call step ctx w' s2).
Proof. intros (Hw & Hc & Hs & Hu). repeat split; cbn; congruence. Qed.

(** An attempt against the registry and against the registry whose
    tools raise instead of overrunning: both fail or both return the
    same value, after the same call. *)
Lemma _execute_step_sim step ctx (s1 s2 : State W) :
  same_trace s1 s2 ->
  exists x1 s1' x2 s2',
    _execute_step registry self step ctx s1 = (x1, s1')
    /\ _execute_step (raising_registry (step_timeout self) registry) self step ctx s2
       = (x2, s2')
    /\ same_attempt x1 x2 /\ same_trace s1' s2'.
Proof.
  intros Hsim. pose proof Hsim as (Hw & _).
  rewrite !_execute_step_eq, dict_get_raising.
  destruct (dict_get (tool step) registry) as [entry|]; cbn [option_map].
  - cbn [function]. unfold raising_instead. rewrite <- Hw.
    destruct (function entry _ (world s1)) as [inv w'].
    destruct (Qle_bool (elapsed inv) (inject_Z (step_timeout self))) eqn:Hin.
    + destruct (future_result (step_timeout self) inv); do 4 eexists;
        (split; [reflexivity|]); (split; [reflexivity|]);
        (split; [exact I || reflexivity|]); now apply same_trace_call.
    + unfold future_result. rewrite Hin. cbn [elapsed outcome].
      destruct (Qle_bool 0 (inject_Z (step_timeout self))); do 4 eexists;
        (split; [reflexivity|]); (split; [reflexivity|]); (split; [exact I|]);
        now apply same_trace_call.
  - do 4 eexists. split; [reflexivity|]. split; [reflexivity|]. split; [exact I|exact Hsim].
Qed.

Lemma outline_append sr1 sr2 r1 r2 :
  outline r1 = outline r2 -> step_outline sr1 = step_outline sr2 ->
  outline (append_step sr1 r1) = outline (append_step sr2 r2).
Proof.
  unfold outline. intros [= Hst Hsteps Hfin] Hsr. cbn.
  now rewrite !map_app, Hst, Hsteps, Hfin; cbn; rewrite Hsr.
Qed.

Lemma outline_gave_up step sr r1 r2 m1 m2 :
  outline r1 = outline r2 ->
  outline (gave_up step sr r1 m1) = outline (gave_up step sr r2 m2).
Proof.
  unfold outline, gave_up. intros [= Hst Hsteps Hfin].
  destruct (needs_human step); cbn; now rewrite !map_app, Hsteps.
Qed.

Lemma run_step_sim on_update step r1 r2 ctx (s1 s2 : State W) :
  same_trace s1 s2 -> outline r1 = outline r2 ->
  exists f1 s1' f2 s2',
    run_step registry self on_update step r1 ctx s1 = (inr f1, s1')
    /\ run_step (raising_registry (step_timeout self) registry) self on_update step r2 ctx s2
       = (inr f2, s2')
    /\ same_flow f1 f2 /\ same_trace s1' s2'.
Proof.
  intros Hsim Hout. rewrite !run_step_eq.
  destruct (_execute_step_sim step ctx
              (notified on_update (step_id step) running VNone s1)
              (notified on_update (step_id step) running VNone s2))
    as (x1 & s1' & x2 & s2' & -> & -> & Hx & Hsim');
    [now apply same_trace_notified|].
  destruct x1 as [e1|v1], x2 as [e2|v2]; cbn in Hx; try contradiction.
  - destruct (retry_allowed step).
    + destruct (_execute_step_sim step ctx (add_slept 1 s1') (add_slept 1 s2'))
        as (y1 & t1 & y2 & t2 & -> & -> & Hy & Hsim'');
        [now apply same_trace_slept|].
      destruct y1 as [e1'|v1], y2 as [e2'|v2]; cbn in Hy; try contradiction.
      * do 4 eexists. split; [reflexivity|]. split; [reflexivity|]. split.
        -- cbn. now apply outline_gave_up.
        -- now apply same_trace_notified.
      * subst v2. do 4 eexists. split; [reflexivity|]. split; [reflexivity|]. split.
        -- cbn. split; [|reflexivity]. now apply outline_append.
        -- now apply same_trace_notified.
    + do 4 eexists. split; [reflexivity|]. split; [reflexivity|]. split.
      * cbn. now apply outline_gave_up.
      * now apply same_trace_notified.
  - subst v2. do 4 eexists. split; [reflexivity|]. split; [reflexivity|]. split.
    + cbn. split; [|reflexivity]. now apply outline_append.
    + now apply same_trace_notified.
Qed.

Lemma run_steps_sim on_update validated :
  forall r1 r2 ctx (s1 s2 : State W),
    same_trace s1 s2 -> outline r1 = outline r2 ->
    exists x1 s1' x2 s2',
      run_steps registry self on_update validated r1 ctx s1 = (inr x1, s1')
      /\ run_steps (raising_registry (step_timeout self) registry) self on_update
           validated r2 ctx s2 = (inr x2, s2')
      /\ outline x1 = outline x2 /\ same_trace s1' s2'.
Proof.
  induction validated as [|step rest IH]; intros r1 r2 ctx s1 s2 Hsim Hout.
  - do 4 eexists. split; [reflexivity|]. split; [reflexivity|]. split; [|exact Hsim].
    unfold outline in *. cbn. now injection Hout as _ ->.
  - cbn [run_steps]. unfold bind.
    destruct (run_step_sim on_update step r1 r2 ctx s1 s2 Hsim Hout)
      as (f1 & s1' & f2 & s2' & -> & -> & Hflow & Hsim').
    destruct f1 as [r1' c1|r1'], f2 as [r2' c2|r2']; cbn in Hflow; try contradiction.
    + destruct Hflow as [Hout' ->]. now apply IH.
    + do 4 eexists. split; [reflexivity|]. split; [reflexivity|]. now split.
Qed.

End TimeoutFacts.

(** *** Validation *)

Section ValidationFacts.
Context {W : Type} {pyd : Pydantic}.
Variable registry : ToolRegistry W.
Variable self : Config.

(** What a step that validated says about its fields. *)
Lemma PlanStep_init_inr raw step :
  PlanStep_init raw = inr step ->
  validate_step_id raw = inr (step_id step)
  /\ validate_tool raw = inr (tool step)
  /\ validate_args raw (Some (tool step)) = inr (args step)
  /\ validate_confidence raw = inr (confidence step)
  /\ validate_retry raw = inr (retry step)
  /\ validate_requires_human raw = inr (requires_human step).
Proof.
  unfold PlanStep_init.
  destruct (validate_step_id raw), (validate_tool raw) as [|t]; cbn [validated];
    try (intros H; discriminate H).
  destruct (validate_args raw (Some t)) eqn:Ha, (validate_reason raw),
    (validate_confidence raw), (validate_retry raw), (validate_requires_human raw);
    intros H; try discriminate H.
  injection H as <-. cbn. now repeat split.
Qed.

Lemma PlanStep_init_tool raw m :
  validate_tool raw = inl m -> exists errs, PlanStep_init raw = inl errs.
Proof.
  intros H. destruct (PlanStep_init raw) as [errs|step] eqn:E; [now exists errs|].
  apply PlanStep_init_inr in E as (_ & Ht & _). congruence.
Qed.

Lemma PlanStep_init_args raw t m :
  validate_tool raw = inr t -> validate_args raw (Some t) = inl m ->
  exists errs, PlanStep_init raw = inl errs.
Proof.
  intros Ht H. destruct (PlanStep_init raw) as [errs|step] eqn:E; [now exists errs|].
  apply PlanStep_init_inr in E as (_ & Ht' & Ha & _).
  rewrite Ht in Ht'. injection Ht' as ->. congruence.
Qed.

Lemma PlanStep_init_confidence raw m :
  validate_confidence raw = inl m -> exists errs, PlanStep_init raw = inl errs.
Proof.
  intros H. destruct (PlanStep_init raw) as [errs|step] eqn:E; [now exists errs|].
  apply PlanStep_init_inr in E as (_ & _ & _ & Hc & _). congruence.
Qed.

Lemma validate_steps_rejects (bad : gmap string value -> Prop) plan :
  (forall raw, bad raw -> exists errs, PlanStep_init raw = inl errs) ->
  Exists bad plan -> exists errs, validate_steps plan = inl errs.
Proof.
  intros Hbad Hex. induction Hex as [raw rest Hraw|raw rest _ IH]; cbn.
  - destruct (Hbad raw Hraw) as [errs ->]. now exists errs.
  - destruct (PlanStep_init raw) as [errs|step]; [now exists errs|].
    destruct IH as [errs ->]. now exists errs.
Qed.

Lemma execute_plan_rejects plan errs tid sid on_update (s : State W) :
  validate_steps plan = inl errs ->
  exists r, execute_plan registry self plan tid sid on_update s = (inr r, s)
            /\ rejected r.
Proof.
  intros H. unfold execute_plan. rewrite H. eexists. split; [reflexivity|].
  repeat split. now eexists.
Qed.

Lemma unknown_tool_invalid raw :
  names_unknown_tool raw -> exists errs, PlanStep_init raw = inl errs.
Proof.
  intros (v & Hv & Hnot). eapply PlanStep_init_tool.
  unfold validate_tool. rewrite Hv.
  destruct v as [| | | |t| |]; try reflexivity.
  destruct (bool_decide (t ∈ TOOL_NAMES)) eqn:Hin; [|reflexivity].
  apply bool_decide_eq_true_1 in Hin. now destruct (Hnot t Hin).
Qed.

Lemma required_args_no_html t required :
  dict_get t required_args = Some required -> "html" ∉ required.
Proof.
  unfold required_args. cbn [dict_get].
  repeat (destruct (String.eqb t _);
          [intros [= <-] H;
           repeat (apply elem_of_cons in H as [H|H]; [discriminate H|]);
           now apply elem_of_nil in H|]).
  discriminate.
Qed.

Lemma check_required_missing t required (d : gmap string value) arg :
  arg ∈ required -> d !! arg = None -> "html" ∉ required ->
  exists m, check_required t required d = Some m.
Proof.
  intros Hin Hnone. induction required as [|a rest IH]; intros Hhtml;
    [now apply elem_of_nil in Hin|].
  apply not_elem_of_cons in Hhtml as [Hne Hrest].
  cbn. destruct (d !! a) eqn:Ha.
  - apply IH; [|exact Hrest]. apply elem_of_cons in Hin as [->|]; [congruence|assumption].
  - destruct (String.eqb_spec a "html") as [->|]; [congruence|]. cbn. now eexists.
Qed.

Lemma missing_arg_invalid raw :
  omits_required_arg raw -> exists errs, PlanStep_init raw = inl errs.
Proof.
  intros (t & a & d & required & arg & Ht & Ha & Hd & Hreq & Hin & Hnone).
  destruct (validate_tool raw) as [m|t'] eqn:Hvt; [now apply PlanStep_init_tool with m|].
  assert (t' = t) as ->.
  { unfold validate_tool in Hvt. rewrite Ht in Hvt.
    destruct (bool_decide _); congruence. }
  destruct (check_required_missing t required d arg Hin Hnone
              (required_args_no_html _ _ Hreq)) as [m Hm].
  apply PlanStep_init_args with (t := t) (m := m); [exact Hvt|].
  unfold validate_args, validate_tool_args. now rewrite Ha, Hd, Hreq, Hm.
Qed.

Lemma validate_confidence_number raw v q :
  raw !! "confidence" = Some v -> v <> VNone -> float_validator v = Some q ->
  validate_confidence raw
  = if negb (Qle_bool 0 q) then inl "ensure this value is greater than or equal to 0.0"
    else if negb (Qle_bool q 1) then inl "ensure this value is less than or equal to 1.0"
    else inr (Some q).
Proof.
  intros Hv Hnone Hq. unfold validate_confidence. rewrite Hv.
  destruct v; try congruence; now rewrite Hq.
Qed.

Lemma confidence_invalid raw :
  confidence_out_of_range raw -> exists errs, PlanStep_init raw = inl errs.
Proof.
  intros (v & q & Hv & Hnone & Hq & Hout).
  pose proof (validate_confidence_number raw v q Hv Hnone Hq) as Hc.
  destruct (Qle_bool 0 q) eqn:Hlo; cbn [negb] in Hc.
  - destruct (Qle_bool q 1) eqn:Hhi; cbn [negb] in Hc.
    + apply Qle_bool_iff in Hlo, Hhi.
      destruct Hout as [Hout|Hout]; now apply Qlt_not_le in Hout.
    + eapply PlanStep_init_confidence. exact Hc.
  - eapply PlanStep_init_confidence. exact Hc.
Qed.

(** C2, as the runner has it.  A raw plan with a step that names a
    tool outside the closed set, or whose arguments lack a name its
    tool requires, is rejected before anything runs: the runner
    returns at once, in the state it was called in (no tool was
    invoked, nothing was retried), a finished result with status
    ['error'], no step result and the message of the validation
    failure.  The step ids play no part in this. *)
Theorem invalid_plan_rejected plan tid sid on_update (s : State W) :
  Exists (fun raw => names_unknown_tool raw \/ omits_required_arg raw) plan ->
  exists r, execute_plan registry self plan tid sid on_update s = (inr r, s)
            /\ rejected r.
Proof.
  intros Hex.
  destruct (validate_steps_rejects _ plan
              (fun raw H => match H with
                            | or_introl H => unknown_tool_invalid raw H
                            | or_intror H => missing_arg_invalid raw H
                            end) Hex) as [errs Herrs].
  now apply execute_plan_rejects with errs.
Qed.

(** C6, as the models have it.  A raw step whose confidence is a
    number outside [0, 1] does not validate, and a plan with such a
    step is rejected before anything runs, like any plan that does
    not validate; a confidence that validates is kept as it was
    given, so validation never moves a confidence into the range. *)
Theorem confidence_out_of_range_rejected :
  (forall plan tid sid on_update (s : State W),
      Exists confidence_out_of_range plan ->
      exists r, execute_plan registry self plan tid sid on_update s = (inr r, s)
                /\ rejected r)
  /\ (forall raw step v q,
         PlanStep_init raw = inr step ->
         raw !! "confidence" = Some v -> v <> VNone -> float_validator v = Some q ->
         confidence step = Some q /\ (0 <= q <= 1)%Q).
Proof.
  split.
  - intros plan tid sid on_update s Hex.
    destruct (validate_steps_rejects _ plan confidence_invalid Hex) as [errs Herrs].
    now apply execute_plan_rejects with errs.
  - intros raw step v q Hinit Hv Hnone Hq.
    apply PlanStep_init_inr in Hinit as (_ & _ & _ & Hc & _).
    rewrite (validate_confidence_number raw v q Hv Hnone Hq) in Hc.
    destruct (Qle_bool 0 q) eqn:Hlo; cbn [negb] in Hc; [|discriminate].
    destruct (Qle_bool q 1) eqn:Hhi; cbn [negb] in Hc; [|discriminate].
    apply Qle_bool_iff in Hlo, Hhi. injection Hc as <-. now repeat split.
Qed.
End ValidationFacts.

(** *** The public entry point *)

Section FacadeFacts.
Context {W : Type} {pyd : Pydantic}.
Variable registry : ToolRegistry W.
Variable ext : Executor.Externals W.

Lemma get_custom_runner_native (s : State W) :
  exists s1, Executor.get_custom_runner s = (inr Executor.Native, s1) /\ world s1 = world s.
Proof.
  unfold Executor.get_custom_runner. destruct (custom_runner_built s); now eexists.
Qed.

Lemma get_runner_native (s : State W) :
  native_backend ext s ->
  exists s1, Executor.get_runner ext s = (inr Executor.Native, s1) /\ world s1 = world s.
Proof.
  unfold Executor.get_runner.
  intros [-> | (-> & Hbuilt & m & Hinit)]; [apply get_custom_runner_native|].
  rewrite Hbuilt, Hinit. apply get_custom_runner_native.
Qed.

Lemma save_or_not (save_results : bool) (r : ExecutionResult) (s : State W) :
  exists s',
    (if save_results
     then try_except (Executor.save_execution_result ext r) (fun _ => ret tt)
     else ret tt) s = (inr tt, s').
Proof.
  destruct save_results; [|now eexists].
  unfold try_except, Executor.save_execution_result.
  destruct (Executor.write_json ext r (world s)) as [[e|] w']; now eexists.
Qed.

(** C9.  Called with an empty plan, [execute_plan] of [executor.py]
    raises [ValueError] at once: no result is returned, and the state
    is the one it was called in, so no runner was built or invoked, no
    task id was drawn and nothing was saved.  The error is that of the
    empty plan alone: a plan with at least one step, handed to the
    native backend, always comes back as an [ExecutionResult]. *)
Theorem empty_plan_raises :
  (forall sid tid on_update save_results (s : State W),
      Executor.execute_plan registry ext [] sid tid on_update save_results s
      = (inl (ValueError "Plan cannot be empty"), s))
  /\ (forall raw rest sid tid on_update save_results (s : State W),
         native_backend ext s ->
         exists r s',
           Executor.execute_plan registry ext (raw :: rest) sid tid on_update save_results s
           = (inr r, s')).
Proof.
  split; [reflexivity|].
  intros raw rest sid tid on_update save_results s Hnative.
  unfold Executor.execute_plan. unfold bind at 1.
  assert (exists t s0, (match tid with
                        | Some t => ret t
                        | None => fun s : State W =>
                                    let '(h, w') := Executor.uuid4_hex8 ext (world s) in
                                    (inr ("task_" ++ h), set_world w' s)
                        end) s = (inr t, s0)
                       /\ langchain_runner_built s0 = langchain_runner_built s)
    as (t & s0 & -> & Hsame).
  { destruct tid as [t|]; [do 2 eexists; split; reflexivity|].
    destruct (Executor.uuid4_hex8 ext (world s)) as [h w'].
    do 2 eexists; split; reflexivity. }
  unfold bind at 1.
  destruct (get_runner_native s0) as (s1 & -> & _).
  { destruct Hnative as [Hoff|(Hon & Hbuilt & Hinit)]; [now left|right].
    now rewrite Hsame. }
  unfold bind at 1.
  destruct (execute_plan_post registry (Executor.config ext) (raw :: rest) t sid true s1)
    as (r & s2 & -> & _).
  unfold bind. destruct (save_or_not save_results r s2) as [s3 ->].
  do 2 eexists; reflexivity.
Qed.
End FacadeFacts.

(** *** What a run leaves in the state *)

Section TraceFacts.
Context {W : Type} {pyd : Pydantic}.
Variable registry : ToolRegistry W.
Variable self : Config.

(** An attempt either finds no tool and changes nothing, or makes one
    call. *)
Lemma _execute_step_effects step ctx (s : State W) :
  (dict_get (tool step) registry = None
   /\ _execute_step registry self step ctx s = (inl (unavailable_error registry step), s))
  \/ (exists entry w' x,
         dict_get (tool step) registry = Some entry
         /\ _execute_step registry self step ctx s = (x, after_call step ctx w' s)).
Proof.
  rewrite _execute_step_eq.
  destruct (dict_get (tool step) registry) as [entry|]; [right|now left].
  destruct (function entry _ _) as [inv w'].
  destruct (future_result _ inv); now do 3 eexists.
Qed.

Lemma updates_notified on_update id st payload (s : State W) :
  map update_outline (updates (notified on_update id st payload s))
  = (map update_outline (updates s) ++ if on_update then [(id, st)] else [])%list.
Proof.
  unfold notified. destruct on_update; cbn; [now rewrite map_app|now rewrite app_nil_r].
Qed.

Lemma globals_notified on_update id st payload (s : State W) :
  custom_runner_built (notified on_update id st payload s) = custom_runner_built s
  /\ langchain_runner_built (notified on_update id st payload s) = langchain_runner_built s
  /\ saved (notified on_update id st payload s) = saved s.
Proof. unfold notified. now destruct on_update. Qed.

Lemma gave_up_steps step sr0 result msg :
  exists sr,
    steps (gave_up step sr0 result msg) = (steps result ++ [sr])%list
    /\ sr_step_id sr = sr_step_id sr0 /\ retry_count sr = retry_count sr0
    /\ sr_status sr = failure_status step
    /\ status (gave_up step sr0 result msg) = failure_status step
    /\ task_id (gave_up step sr0 result msg) = task_id result
    /\ session_id (gave_up step sr0 result msg) = session_id result.
Proof.
  unfold gave_up, failure_status. destruct (needs_human step); eexists; now repeat split.
Qed.

Lemma failure_status_not_ok step : failure_status step <> ok.
Proof. unfold failure_status. now destruct (needs_human step). Qed.

Ltac trace_side Hs0 Hc0 Hu0 Hg0 :=
  first
    [ assumption | exact Hu0 | exact Hg0 | reflexivity
    | cbn [add_slept after_call set_world log_call slept updates calls
           custom_runner_built langchain_runner_built saved];
      rewrite ?length_app; cbn [length];
      rewrite ?Hs0, ?Hc0;
      first [ exact Hu0 | exact Hg0 | lia | reflexivity ]
    | cbn; lia ].

(** What one pass of the loop body does to the state, by the step
    result it leaves. *)
Lemma run_step_trace on_update step result ctx (s : State W) :
  exists flow s' sr,
    run_step registry self on_update step result ctx s = (inr flow, s')
    /\ steps (flow_result flow) = (steps result ++ [sr])%list
    /\ task_id (flow_result flow) = task_id result
    /\ session_id (flow_result flow) = session_id result
    /\ sr_step_id sr = step_id step
    /\ (retry_count sr = 0 \/ retry_count sr = 1 /\ 1 <= retry_budget step)
    /\ slept s' = slept s + retry_count sr
    /\ map update_outline (updates s')
       = (map update_outline (updates s)
            ++ if on_update
               then [(step_id step, running); (step_id step, sr_status sr)]
               else [])%list
    /\ Z.of_nat (length (calls s')) <= Z.of_nat (length (calls s)) + 1 + retry_count sr
    /\ (resolvable registry step ->
        Z.of_nat (length (calls s')) = Z.of_nat (length (calls s)) + 1 + retry_count sr)
    /\ (custom_runner_built s' = custom_runner_built s
        /\ langchain_runner_built s' = langchain_runner_built s /\ saved s' = saved s)
    /\ match flow with
       | Continue r' _ => sr_status sr = ok /\ status r' = status result
       | Return r' => sr_status sr <> ok /\ status r' <> ok
       end.
Proof.
  rewrite run_step_eq.
  set (s0 := notified on_update (step_id step) running VNone s).
  assert (Hu0 : map update_outline (updates s0)
                = (map update_outline (updates s)
                     ++ if on_update then [(step_id step, running)] else [])%list)
    by apply updates_notified.
  assert (Hc0 : calls s0 = calls s) by apply calls_notified.
  assert (Hs0 : slept s0 = slept s) by apply slept_notified.
  pose proof (globals_notified on_update (step_id step) running VNone s) as Hg0.
  fold s0 in Hg0.
  assert (Hfin : forall st p (t : State W) (n : Z) k sr,
             slept t = slept s + n ->
             map update_outline (updates t)
             = (map update_outline (updates s)
                  ++ if on_update then [(step_id step, running)] else [])%list ->
             Z.of_nat (length (calls t)) = Z.of_nat (length (calls s)) + k ->
             (custom_runner_built t = custom_runner_built s
              /\ langchain_runner_built t = langchain_runner_built s /\ saved t = saved s) ->
             sr_status sr = st -> retry_count sr = n ->
             slept (notified on_update (step_id step) st p t) = slept s + retry_count sr
             /\ map update_outline (updates (notified on_update (step_id step) st p t))
                = (map update_outline (updates s)
                     ++ if on_update
                        then [(step_id step, running); (step_id step, sr_status sr)]
                        else [])%list
             /\ Z.of_nat (length (calls (notified on_update (step_id step) st p t)))
                = Z.of_nat (length (calls s)) + k
             /\ (custom_runner_built (notified on_update (step_id step) st p t)
                 = custom_runner_built s
                 /\ langchain_runner_built (notified on_update (step_id step) st p t)
                    = langchain_runner_built s
                 /\ saved (notified on_update (step_id step) st p t) = saved s)).
  { intros st p t n k sr Hsl Hup Hca Hgl Hst Hrc.
    rewrite slept_notified, updates_notified, calls_notified, Hup, Hst, Hrc.
    pose proof (globals_notified on_update (step_id step) st p t) as (-> & -> & ->).
    split; [exact Hsl|]. split; [|split; [exact Hca|exact Hgl]].
    destruct on_update; [now rewrite <- app_assoc|now rewrite app_nil_r]. }
  assert (Hcall : forall w' (t : State W) k,
             Z.of_nat (length (calls t)) = Z.of_nat (length (calls s)) + k ->
             Z.of_nat (length (calls (after_call step ctx w' t)))
             = Z.of_nat (length (calls s)) + (k + 1)).
  { intros w' t k Hk. cbn. rewrite length_app. cbn. lia. }
  destruct (_execute_step_effects step ctx s0)
    as [(Hnone & ->)|(entry & w1 & x1 & Hentry & ->)].
  - (* the tool does not resolve *)
    assert (Hres : ~ resolvable registry step) by (intros [e He]; congruence).
    rewrite retry_allowed_budget.
    destruct (Z.leb_spec 1 (retry_budget step)) as [Hpos|Hzero].
    + rewrite (_execute_step_unavailable registry self step ctx _ Hnone).
      destruct (gave_up_steps step (retried_step_result step) result
                  ("Step failed after 1 retries: "
                     ++ str_exn (unavailable_error registry step)))
        as (sr & Hsteps & Hid & Hrc & Hst & Hstatus & Htid & Hsid); cbn in Hrc, Hid.
      destruct (Hfin (failure_status step)
                  (VStr ("Step failed after 1 retries: "
                           ++ str_exn (unavailable_error registry step)))
                  (add_slept 1 s0) 1 0 sr)
        as (H1 & H2 & H3 & H4); [trace_side Hs0 Hc0 Hu0 Hg0..|].
      do 3 eexists. split; [reflexivity|]. cbn [flow_result].
      split; [exact Hsteps|]. split; [exact Htid|]. split; [exact Hsid|].
      split; [exact Hid|]. split; [right; now split|]. split; [exact H1|].
      split; [exact H2|]. split; [lia|]. split; [now intros ?|]. split; [exact H4|].
      rewrite Hst, Hstatus. split; apply failure_status_not_ok.
    + destruct (gave_up_steps step (fresh_step_result step) result
                  (str_exn (unavailable_error registry step)))
        as (sr & Hsteps & Hid & Hrc & Hst & Hstatus & Htid & Hsid); cbn in Hrc, Hid.
      destruct (Hfin (failure_status step)
                  (VStr (str_exn (unavailable_error registry step))) s0 0 0 sr)
        as (H1 & H2 & H3 & H4); [trace_side Hs0 Hc0 Hu0 Hg0..|].
      do 3 eexists. split; [reflexivity|]. cbn [flow_result].
      split; [exact Hsteps|]. split; [exact Htid|]. split; [exact Hsid|].
      split; [exact Hid|]. split; [now left|]. split; [exact H1|].
      split; [exact H2|]. split; [lia|]. split; [now intros ?|]. split; [exact H4|].
      rewrite Hst, Hstatus. split; apply failure_status_not_ok.
  - (* the tool resolves: every attempt is one call *)
    assert (Hk1 : Z.of_nat (length (calls (after_call step ctx w1 s0)))
                  = Z.of_nat (length (calls s)) + (0 + 1))
      by (apply Hcall; rewrite Hc0; lia).
    destruct x1 as [e1|output].
    + rewrite retry_allowed_budget.
      destruct (Z.leb_spec 1 (retry_budget step)) as [Hpos|Hzero].
      * destruct (_execute_step_effects step ctx (add_slept 1 (after_call step ctx w1 s0)))
          as [(Hnone & _)|(entry2 & w2 & x2 & _ & ->)]; [congruence|].
        assert (Hk2 : Z.of_nat (length (calls (after_call step ctx w2
                                                 (add_slept 1 (after_call step ctx w1 s0)))))
                      = Z.of_nat (length (calls s)) + (1 + 1))
          by (apply Hcall; cbn [add_slept calls]; lia).
        destruct x2 as [e2|output].
        -- destruct (gave_up_steps step (retried_step_result step) result
                       ("Step failed after 1 retries: " ++ str_exn e2))
             as (sr & Hsteps & Hid & Hrc & Hst & Hstatus & Htid & Hsid); cbn in Hrc, Hid.
           destruct (Hfin (failure_status step)
                       (VStr ("Step failed after 1 retries: " ++ str_exn e2))
                       (after_call step ctx w2 (add_slept 1 (after_call step ctx w1 s0)))
                       1 2 sr)
             as (H1 & H2 & H3 & H4); [trace_side Hs0 Hc0 Hu0 Hg0..|].
           do 3 eexists. split; [reflexivity|]. cbn [flow_result].
           split; [exact Hsteps|]. split; [exact Htid|]. split; [exact Hsid|].
           split; [exact Hid|]. split; [right; now split|]. split; [exact H1|].
           split; [exact H2|]. split; [lia|]. split; [intros _; lia|]. split; [exact H4|].
           rewrite Hst, Hstatus. split; apply failure_status_not_ok.
        -- destruct (Hfin ok output
                       (after_call step ctx w2 (add_slept 1 (after_call step ctx w1 s0)))
                       1 2 (step_mark_finished ok output None (retried_step_result step)))
             as (H1 & H2 & H3 & H4); [trace_side Hs0 Hc0 Hu0 Hg0..|].
           do 3 eexists. split; [reflexivity|]. cbn [flow_result].
           split; [reflexivity|]. split; [reflexivity|]. split; [reflexivity|].
           split; [reflexivity|]. split; [right; now split|]. split; [exact H1|].
           split; [exact H2|]. split; [cbn in *; lia|]. split; [intros _; cbn in *; lia|].
           split; [exact H4|]. now split.
      * destruct (gave_up_steps step (fresh_step_result step) result (str_exn e1))
          as (sr & Hsteps & Hid & Hrc & Hst & Hstatus & Htid & Hsid); cbn in Hrc, Hid.
        destruct (Hfin (failure_status step) (VStr (str_exn e1))
                    (after_call step ctx w1 s0) 0 1 sr)
          as (H1 & H2 & H3 & H4); [trace_side Hs0 Hc0 Hu0 Hg0..|].
        do 3 eexists. split; [reflexivity|]. cbn [flow_result].
        split; [exact Hsteps|]. split; [exact Htid|]. split; [exact Hsid|].
        split; [exact Hid|]. split; [now left|]. split; [exact H1|].
        split; [exact H2|]. split; [lia|]. split; [intros _; lia|]. split; [exact H4|].
        rewrite Hst, Hstatus. split; apply failure_status_not_ok.
    + destruct (Hfin ok output (after_call step ctx w1 s0) 0 1
                  (step_mark_finished ok output None (fresh_step_result step)))
        as (H1 & H2 & H3 & H4); [trace_side Hs0 Hc0 Hu0 Hg0..|].
      do 3 eexists. split; [reflexivity|]. cbn [flow_result].
      split; [reflexivity|]. split; [reflexivity|]. split; [reflexivity|].
      split; [reflexivity|]. split; [now left|]. split; [exact H1|].
      split; [exact H2|]. split; [cbn in *; lia|]. split; [intros _; cbn in *; lia|].
      split; [exact H4|]. now split.
Qed.

Lemma total_retries_cons sr l : total_retries (sr :: l) = retry_count sr + total_retries l.
Proof. reflexivity. Qed.

Lemma total_retries_one sr : total_retries [sr] = retry_count sr.
Proof. cbn. lia. Qed.

(** The loop, by the step results it adds. *)
Lemma run_steps_trace on_update validated :
  forall result ctx (s : State W),
  exists r s' new_steps,
    run_steps registry self on_update validated result ctx s = (inr r, s')
    /\ steps r = (steps result ++ new_steps)%list
    /\ (task_id r = task_id result /\ session_id r = session_id result)
    /\ slept s' = slept s + total_retries new_steps
    /\ map update_outline (updates s')
       = (map update_outline (updates s)
            ++ if on_update then expected_updates new_steps else [])%list
    /\ Z.of_nat (length (calls s'))
       <= Z.of_nat (length (calls s)) + Z.of_nat (length new_steps)
          + total_retries new_steps
    /\ (Forall (resolvable registry) validated ->
        Z.of_nat (length (calls s'))
        = Z.of_nat (length (calls s)) + Z.of_nat (length new_steps)
          + total_retries new_steps)
    /\ (custom_runner_built s' = custom_runner_built s
        /\ langchain_runner_built s' = langchain_runner_built s /\ saved s' = saved s)
    /\ (status r = ok <-> all_ok new_steps)
    /\ (status r = ok -> map sr_step_id new_steps = map step_id validated)
    /\ (Forall (fun st => retry_budget st <= 0) validated ->
        Forall (fun sr => retry_count sr = 0) new_steps)
    /\ Forall (fun sr => 0 <= retry_count sr) new_steps.
Proof.
  induction validated as [|step rest IH]; intros result ctx s.
  - exists (mark_finished ok None result), s, []. cbn.
    rewrite !app_nil_r. repeat split; try lia; try constructor.
    destruct on_update; now rewrite app_nil_r.
  - cbn [run_steps]. unfold bind.
    destruct (run_step_trace on_update step result ctx s)
      as (flow & s1 & sr & -> & Hsteps & Htid & Hsid & Hid & Hrc & Hsl & Hup & Hle & Heq
          & Hgl & Hflow).
    assert (Hnn : 0 <= retry_count sr) by (destruct Hrc as [->|[-> _]]; lia).
    destruct flow as [r1 ctx1|r1]; cbn [flow_result] in *.
    + destruct Hflow as [Hok Hstatus].
      destruct (IH r1 ctx1 s1)
        as (r & s' & new & -> & Hsteps' & [Htid' Hsid'] & Hsl' & Hup' & Hle' & Heq' & Hgl'
            & Hiff & Hids & Hzero & Hnn').
      exists r, s', (sr :: new). split; [reflexivity|].
      split; [now rewrite Hsteps', Hsteps, <- app_assoc|].
      split; [split; congruence|].
      split; [rewrite total_retries_cons; lia|].
      split.
      { rewrite Hup', Hup. destruct on_update; [|now rewrite !app_nil_r].
        cbn. rewrite Hid, Hok, <- app_assoc. reflexivity. }
      split; [rewrite total_retries_cons; cbn [length]; lia|].
      split.
      { intros Hall. apply Forall_cons in Hall as [Hres Hall].
        specialize (Heq Hres). specialize (Heq' Hall).
        rewrite total_retries_cons. cbn [length]. lia. }
      split; [destruct Hgl as (A1 & A2 & A3), Hgl' as (B1 & B2 & B3); repeat split; congruence|].
      split.
      { rewrite Hiff. unfold all_ok. split; [now constructor|].
        intros Hall. now apply Forall_cons in Hall as [_ Hall]. }
      split; [intros Hr; cbn; now rewrite Hid, (Hids Hr)|].
      split.
      { intros Hall. apply Forall_cons in Hall as [Hb Hall]. constructor; [|now apply Hzero].
        destruct Hrc as [->|[_ Hpos]]; [reflexivity|lia]. }
      now constructor.
    + destruct Hflow as [Hbad Hstatus].
      exists r1, s1, [sr]. split; [reflexivity|]. split; [exact Hsteps|].
      split; [now split|].
      split; [rewrite total_retries_one; lia|].
      split.
      { rewrite Hup. destruct on_update; [|reflexivity]. cbn. now rewrite Hid. }
      split; [rewrite total_retries_one; cbn [length]; lia|].
      split.
      { intros Hall. apply Forall_cons in Hall as [Hres _]. specialize (Heq Hres).
        rewrite total_retries_one. cbn [length]. lia. }
      split; [exact Hgl|].
      split.
      { split; [contradiction|]. intros Hall. apply Forall_cons in Hall as [Hok _].
        contradiction. }
      split; [contradiction|].
      split.
      { intros Hall. apply Forall_cons in Hall as [Hb _]. constructor; [|constructor].
        destruct Hrc as [->|[_ Hpos]]; [reflexivity|lia]. }
      now constructor.
Qed.

(** [execute_plan], by the step results of its result. *)
Lemma execute_plan_trace plan_steps tid sid on_update (s : State W) :
  exists r s',
    execute_plan registry self plan_steps tid sid on_update s = (inr r, s')
    /\ (task_id r = tid /\ session_id r = sid)
    /\ slept s' = slept s + total_retries (steps r)
    /\ map update_outline (updates s')
       = (map update_outline (updates s)
            ++ if on_update then expected_updates (steps r) else [])%list
    /\ Z.of_nat (length (calls s'))
       <= Z.of_nat (length (calls s)) + Z.of_nat (length (steps r))
          + total_retries (steps r)
    /\ (custom_runner_built s' = custom_runner_built s
        /\ langchain_runner_built s' = langchain_runner_built s /\ saved s' = saved s)
    /\ Forall (fun sr => 0 <= retry_count sr) (steps r)
    /\ forall validated,
         validate_steps plan_steps = inr validated ->
         (Forall (resolvable registry) validated ->
          Z.of_nat (length (calls s'))
          = Z.of_nat (length (calls s)) + Z.of_nat (length (steps r))
            + total_retries (steps r))
         /\ (status r = ok <-> all_ok (steps r))
         /\ (status r = ok -> map sr_step_id (steps r) = map step_id validated)
         /\ (Forall (fun st => retry_budget st <= 0) validated ->
             Forall (fun sr => retry_count sr = 0) (steps r)).
Proof.
  unfold execute_plan.
  destruct (validate_steps plan_steps) as [errs|validated].
  - do 2 eexists. split; [reflexivity|]. cbn.
    split; [now split|]. split; [lia|].
    split; [destruct on_update; now rewrite app_nil_r|].
    split; [lia|]. split; [now repeat split|]. split; [constructor|]. discriminate.
  - destruct (run_steps_trace on_update validated (ExecutionResult_init tid running sid) [] s)
      as (r & s' & new & -> & Hsteps & Hids & Hsl & Hup & Hle & Heq & Hgl & Hiff & Hall
          & Hzero & Hnn).
    cbn in Hsteps, Hids. subst new.
    exists r, s'. split; [reflexivity|]. split; [exact Hids|]. split; [exact Hsl|].
    split; [exact Hup|]. split; [exact Hle|]. split; [exact Hgl|]. split; [exact Hnn|].
    intros ? [= <-]. split; [exact Heq|]. split; [exact Hiff|]. split; [exact Hall|exact Hzero].
Qed.

Lemma total_retries_zero l :
  Forall (fun sr => retry_count sr = 0) l -> total_retries l = 0.
Proof.
  induction 1 as [|sr l Hsr _ IH]; [reflexivity|]. rewrite total_retries_cons. lia.
Qed.

(** X1.  For a plan that validates, the run is ['ok'] exactly when
    every step result is ['ok'], and then there is one step result for
    each step of the plan, in plan order. *)
Theorem ok_run_is_complete plan_steps validated tid sid on_update (s : State W) :
  validate_steps plan_steps = inr validated ->
  exists r s',
    execute_plan registry self plan_steps tid sid on_update s = (inr r, s')
    /\ (status r = ok <-> all_ok (steps r))
    /\ (status r = ok -> map sr_step_id (steps r) = map step_id validated).
Proof.
  intros Hvalid.
  destruct (execute_plan_trace plan_steps tid sid on_update s)
    as (r & s' & Hrun & _ & _ & _ & _ & _ & _ & Hv).
  destruct (Hv validated Hvalid) as (_ & Hiff & Hids & _).
  now exists r, s'.
Qed.

(** X2.  The runner sleeps one second for each retry and at no other
    time: the seconds slept during a run are the sum of the retry
    counts of its step results. *)
Theorem sleeps_once_per_retry plan_steps tid sid on_update (s : State W) :
  exists r s',
    execute_plan registry self plan_steps tid sid on_update s = (inr r, s')
    /\ slept s' = slept s + total_retries (steps r).
Proof.
  destruct (execute_plan_trace plan_steps tid sid on_update s)
    as (r & s' & Hrun & _ & Hsl & _).
  now exists r, s'.
Qed.


(** X4.  A run invokes tools at most once per step result plus once
    per retry, and exactly that often when the registry has a tool for
    every step of the plan. *)
Theorem tool_calls_accounted plan_steps tid sid on_update (s : State W) :
  exists r s',
    execute_plan registry self plan_steps tid sid on_update s = (inr r, s')
    /\ Z.of_nat (length (calls s'))
       <= Z.of_nat (length (calls s)) + Z.of_nat (length (steps r))
          + total_retries (steps r)
    /\ forall validated,
         validate_steps plan_steps = inr validated ->
         Forall (resolvable registry) validated ->
         Z.of_nat (length (calls s'))
         = Z.of_nat (length (calls s)) + Z.of_nat (length (steps r))
           + total_retries (steps r).
Proof.
  destruct (execute_plan_trace plan_steps tid sid on_update s)
    as (r & s' & Hrun & _ & _ & _ & Hle & _ & _ & Hv).
  exists r, s'. split; [exact Hrun|]. split; [exact Hle|].
  intros validated Hvalid. now destruct (Hv validated Hvalid) as (Heq & _).
Qed.

(** X5.  When no step of the plan has a positive retry budget, no step
    is retried: every retry count is 0, the runner never sleeps, and no
    step's tool is invoked twice. *)
Theorem no_budget_no_retry plan_steps validated tid sid on_update (s : State W) :
  validate_steps plan_steps = inr validated ->
  Forall (fun st => retry_budget st <= 0) validated ->
  exists r s',
    execute_plan registry self plan_steps tid sid on_update s = (inr r, s')
    /\ Forall (fun sr => retry_count sr = 0) (steps r)
    /\ slept s' = slept s
    /\ (length (calls s') <= length (calls s) + length (steps r))%nat.
Proof.
  intros Hvalid Hbudget.
  destruct (execute_plan_trace plan_steps tid sid on_update s)
    as (r & s' & Hrun & _ & Hsl & _ & Hle & _ & _ & Hv).
  destruct (Hv validated Hvalid) as (_ & _ & _ & Hzero).
  specialize (Hzero Hbudget). pose proof (total_retries_zero _ Hzero) as Htot.
  exists r, s'. split; [exact Hrun|]. split; [exact Hzero|]. split; lia.
Qed.

(** X6.  Only an [extract] step without an ['html'] argument is given
    anything from the step context: for every other step the tool is
    called with exactly the arguments the step declares. *)
Theorem declared_arguments_pass_unchanged step ctx (s : State W) :
  resolvable registry step ->
  tool step <> "extract" \/ is_Some (args step !! "html") ->
  exists x s',
    _execute_step registry self step ctx s = (x, s')
    /\ calls s' = (calls s ++ [ {| call_tool := tool step; call_args := args step |} ])%list.
Proof.
  intros [entry Hentry] Hdecl.
  destruct (_execute_step_resolved registry self step ctx s entry Hentry)
    as (x & s' & Hrun & Hcalls).
  exists x, s'. split; [exact Hrun|]. rewrite Hcalls. unfold call_of.
  replace (call_arguments step ctx) with (args step); [reflexivity|].
  unfold call_arguments. destruct Hdecl as [Hne|[v Hv]].
  - destruct (String.eqb_spec (tool step) "extract"); [contradiction|reflexivity].
  - rewrite Hv, bool_decide_eq_false_2 by discriminate. now rewrite andb_false_r.
Qed.
End TraceFacts.

(** *** The accessors of a result *)

Section ResultFacts.
Context {W : Type} {pyd : Pydantic}.
Variable registry : ToolRegistry W.
Variable self : Config.

Lemma filter_all_ok l : all_ok l -> filter (fun s => sr_status s = ok) l = l.
Proof.
  induction 1 as [|sr l Hsr _ IH]; [reflexivity|].
  rewrite filter_cons_True by exact Hsr. now rewrite IH.
Qed.

(** X7.  [get_final_output] of the result of a run is the output of
    the last step when the run is ['ok'], and otherwise the output of
    the step before the one that stopped the run; it is [None] when
    there is no such step. *)
Theorem final_output_of_run plan_steps tid sid on_update (s : State W) :
  exists r s',
    execute_plan registry self plan_steps tid sid on_update s = (inr r, s')
    /\ get_final_output r
       = match last (if bool_decide (status r = ok) then steps r
                     else removelast (steps r)) with
         | Some sr => sr_output sr
         | None => VNone
         end.
Proof.
  destruct (execute_plan_post registry self plan_steps tid sid on_update s)
    as (r & s' & Hrun & Hshape & _).
  exists r, s'. split; [exact Hrun|]. unfold get_final_output.
  destruct Hshape as [Hst Hok|pre sr Hsteps Hok Hbad Hst _ _|Hst Hnil _].
  - rewrite Hst, bool_decide_eq_true_2 by reflexivity. now rewrite filter_all_ok.
  - rewrite Hst, Hsteps, bool_decide_eq_false_2
      by (destruct Hbad as [-> | ->]; discriminate).
    rewrite removelast_last, filter_app, filter_all_ok by exact Hok.
    rewrite filter_cons_False, filter_nil, app_nil_r; [reflexivity|].
    destruct Hbad as [-> | ->]; discriminate.
  - rewrite Hst, Hnil. reflexivity.
Qed.

Lemma collect_output_other d sr id :
  sr_step_id sr <> id -> collect_output d sr !! id = d !! id.
Proof.
  intros Hne. unfold collect_output.
  destruct (_ && _); [now rewrite lookup_insert_ne|reflexivity].
Qed.

Lemma collect_output_kept sr :
  sr_status sr = ok -> sr_output sr <> VNone ->
  forall d, collect_output d sr = <[sr_step_id sr := sr_output sr]> d.
Proof.
  intros Hok Hout d. unfold collect_output.
  rewrite bool_decide_eq_true_2 by exact Hok. now destruct (sr_output sr).
Qed.

Lemma collect_output_sound d sr id v :
  collect_output d sr !! id = Some v ->
  d !! id = Some v
  \/ (sr_step_id sr = id /\ sr_status sr = ok /\ sr_output sr = v /\ v <> VNone).
Proof.
  unfold collect_output.
  destruct (bool_decide (sr_status sr = ok)) eqn:Hok; cbn [andb]; [|now left].
  apply bool_decide_eq_true_1 in Hok.
  destruct (sr_output sr) eqn:Hout; [now left|..];
    (destruct (decide (sr_step_id sr = id)) as [<-|Hne];
     [rewrite lookup_insert_eq; intros [= <-]; right; now repeat split
     |rewrite lookup_insert_ne by exact Hne; now left]).
Qed.

Lemma foldl_collect_sound l :
  forall d id v,
    foldl collect_output d l !! id = Some v ->
    d !! id = Some v
    \/ exists sr, sr ∈ l /\ sr_step_id sr = id /\ sr_status sr = ok
                  /\ sr_output sr = v /\ v <> VNone.
Proof.
  induction l as [|x l IH]; intros d id v; cbn; [now left|].
  intros H. apply IH in H as [H|(sr & Hin & Hrest)].
  - apply collect_output_sound in H as [H|H]; [now left|right].
    exists x. split; [left|exact H].
  - right. exists sr. split; [now right|exact Hrest].
Qed.

Lemma foldl_collect_absent l :
  forall d id, id ∉ map sr_step_id l -> foldl collect_output d l !! id = d !! id.
Proof.
  induction l as [|x l IH]; intros d id Hid; cbn; [reflexivity|].
  cbn in Hid. apply not_elem_of_cons in Hid as [Hne Hid].
  rewrite IH by exact Hid. now apply collect_output_other.
Qed.

Lemma foldl_collect_complete l :
  NoDup (map sr_step_id l) ->
  forall d sr,
    sr ∈ l -> sr_status sr = ok -> sr_output sr <> VNone ->
    foldl collect_output d l !! sr_step_id sr = Some (sr_output sr).
Proof.
  induction l as [|x l IH]; intros Hnd d sr Hin Hok Hout; [now apply elem_of_nil in Hin|].
  cbn in Hnd. apply NoDup_cons in Hnd as [Hx Hnd]. cbn.
  apply elem_of_cons in Hin as [->|Hin].
  - rewrite foldl_collect_absent by exact Hx.
    rewrite (collect_output_kept x Hok Hout). apply lookup_insert_eq.
  - now apply IH.
Qed.

(** X8.  [get_step_outputs] maps a step id only to the output of an
    ['ok'] step result of that id, never to [None]; when the step ids
    of the result are distinct, it has the output of every ['ok'] step
    that has one. *)
Theorem step_outputs_lookup (r : ExecutionResult) :
  (forall id v,
      get_step_outputs r !! id = Some v ->
      v <> VNone
      /\ exists sr, sr ∈ steps r /\ sr_step_id sr = id /\ sr_status sr = ok
                    /\ sr_output sr = v)
  /\ (NoDup (map sr_step_id (steps r)) ->
      forall sr, sr ∈ steps r -> sr_status sr = ok -> sr_output sr <> VNone ->
                 get_step_outputs r !! sr_step_id sr = Some (sr_output sr)).
Proof.
  unfold get_step_outputs. fold collect_output. split.
  - intros id v H. apply foldl_collect_sound in H as [H|(sr & Hin & Hid & Hok & Hout & Hv)].
    + now rewrite lookup_empty in H.
    + split; [exact Hv|]. now exists sr.
  - intros Hnd sr. now apply foldl_collect_complete.
Qed.
End ResultFacts.

(** *** What validation lets through *)

Section AcceptanceFacts.
Context {pyd : Pydantic}.

(** X9.  Keys of a raw step that are not fields of [PlanStep] play no
    part in its validation: with or without such a key the outcome is
    the same. *)
Theorem extra_keys_ignored (raw : gmap string value) k v :
  k ∉ FIELD_NAMES -> PlanStep_init (<[k := v]> raw) = PlanStep_init raw.
Proof.
  intros Hk. unfold FIELD_NAMES in Hk.
  repeat (apply not_elem_of_cons in Hk as [? Hk]).
  unfold PlanStep_init, validate_step_id, validate_tool, validate_args, validate_reason,
    validate_confidence, validate_retry, validate_requires_human.
  now rewrite !lookup_insert_ne by assumption.
Qed.

Lemma check_required_none t required (d : gmap string value) :
  "html" ∉ required -> check_required t required d = None ->
  Forall (fun k => is_Some (d !! k)) required.
Proof.
  induction required as [|a rest IH]; intros Hhtml; [constructor|].
  apply not_elem_of_cons in Hhtml as [Hne Hrest]. cbn.
  destruct (d !! a) eqn:Ha.
  - intros H. constructor; [now rewrite Ha|now apply IH].
  - destruct (String.eqb_spec a "html"); [congruence|discriminate].
Qed.

Lemma check_required_present t required (d : gmap string value) :
  Forall (fun k => is_Some (d !! k)) required -> check_required t required d = None.
Proof.
  induction 1 as [|a rest [x Ha] _ IH]; [reflexivity|]. cbn. now rewrite Ha.
Qed.

Lemma validate_tool_inr raw t :
  validate_tool raw = inr t -> raw !! "tool" = Some (VStr t) /\ t ∈ TOOL_NAMES.
Proof.
  unfold validate_tool. destruct (raw !! "tool") as [[| | | |s| |]|]; try discriminate.
  destruct (bool_decide (s ∈ TOOL_NAMES)) eqn:Hin; [|discriminate].
  intros [= <-]. split; [reflexivity|]. now apply bool_decide_eq_true_1 in Hin.
Qed.

Lemma validate_args_inr raw t a :
  validate_args raw (Some t) = inr a -> has_required_args t a.
Proof.
  unfold validate_args, validate_tool_args.
  destruct (raw !! "args") as [v|]; [|discriminate].
  destruct (dict_validator v) as [d|]; [|discriminate].
  intros H required Hreq. rewrite Hreq in H.
  destruct (check_required t required d) eqn:Hc; [discriminate|].
  injection H as <-. eapply check_required_none; [|exact Hc].
  now apply required_args_no_html with t.
Qed.

Lemma validate_retry_inr raw n : validate_retry raw = inr (Some n) -> 0 <= n.
Proof.
  unfold validate_retry. destruct (raw !! "retry") as [v|]; [|now intros [= <-]].
  assert (match int_validator v with
          | Some z => if (0 <=? z)%Z then inr (Some z)
                      else inl "ensure this value is greater than or equal to 0"
          | None => inl "value is not a valid integer"
          end = inr (Some n) -> 0 <= n) as Hgen.
  { destruct (int_validator v) as [z|]; [|discriminate].
    destruct (Z.leb_spec 0 z); [now intros [= <-]|discriminate]. }
  destruct v; try exact Hgen. discriminate.
Qed.

Lemma validate_confidence_inr raw q :
  validate_confidence raw = inr (Some q) -> (0 <= q <= 1)%Q.
Proof.
  unfold validate_confidence. destruct (raw !! "confidence") as [v|]; [|discriminate].
  assert (match float_validator v with
          | Some q =>
              if negb (Qle_bool 0 q)
              then inl "ensure this value is greater than or equal to 0.0"
              else if negb (Qle_bool q 1)
                   then inl "ensure this value is less than or equal to 1.0"
                   else inr (Some q)
          | None => inl "value is not a valid float"
          end = inr (Some q) -> (0 <= q <= 1)%Q) as Hgen.
  { destruct (float_validator v) as [q'|]; [|discriminate].
    destruct (Qle_bool 0 q') eqn:Hlo; cbn [negb]; [|discriminate].
    destruct (Qle_bool q' 1) eqn:Hhi; cbn [negb]; [|discriminate].
    intros [= <-]. apply Qle_bool_iff in Hlo, Hhi. now split. }
  destruct v; try exact Hgen. discriminate.
Qed.

(** X10.  A step that validated is fit to run: its tool is one of the
    five names, its arguments have every name that tool requires, its
    retry budget, when it has one, is not negative, and its confidence,
    when it has one, lies in [0, 1]. *)
Theorem validated_step_is_well_formed raw step :
  PlanStep_init raw = inr step ->
  tool step ∈ TOOL_NAMES
  /\ has_required_args (tool step) (args step)
  /\ (forall n, retry step = Some n -> 0 <= n)
  /\ (forall q, confidence step = Some q -> (0 <= q <= 1)%Q).
Proof.
  intros Hinit.
  apply PlanStep_init_inr in Hinit as (_ & Ht & Ha & Hc & Hr & _).
  split; [now apply validate_tool_inr in Ht|].
  split; [now apply validate_args_inr with raw|].
  split.
  - intros n Hn. rewrite Hn in Hr. now apply validate_retry_inr with raw.
  - intros q Hq. rewrite Hq in Hc. now apply validate_confidence_inr with raw.
Qed.

(** X11.  A raw step validates when it has an integer id, one of the
    five tool names, a dict of arguments with every name the tool
    requires, and for each optional key either nothing or a value of
    the declared type within its bounds (a string as reason, a float in
    [0, 1] as confidence, a non-negative integer as retry, a boolean as
    requires_human), whatever the coercions of the library do elsewhere.
    The step has the values given; a missing retry is 0 and a missing
    requires_human is false. *)
Theorem typed_step_validates (raw : gmap string value) id t a
    (r : option string) (c : option Q) (n : option Z) (h : option bool) :
  raw !! "step_id" = Some (VInt id) ->
  raw !! "tool" = Some (VStr t) -> t ∈ TOOL_NAMES ->
  raw !! "args" = Some (VDict a) -> has_required_args t a ->
  raw !! "reason" = VStr <$> r ->
  raw !! "confidence" = VFloat <$> c -> (forall q, c = Some q -> (0 <= q <= 1)%Q) ->
  raw !! "retry" = VInt <$> n -> (forall k, n = Some k -> 0 <= k) ->
  raw !! "requires_human" = VBool <$> h ->
  PlanStep_init raw
  = inr {| step_id := id; tool := t; args := a; reason := r; confidence := c;
           retry := Some (default 0 n); requires_human := Some (default false h) |}.
Proof.
  intros Hid Ht Hin Ha Hreq Hreason Hconf Hrange Hretry Hnonneg Hhuman.
  unfold PlanStep_init, validate_step_id, validate_tool, validate_args, validate_reason,
    validate_confidence, validate_retry, validate_requires_human.
  rewrite Hid, Ht, Ha, Hreason, Hconf, Hretry, Hhuman.
  rewrite int_validator_int, dict_validator_dict, bool_decide_eq_true_2 by exact Hin.
  cbn [validated]. unfold validate_tool_args.
  assert (Hargs : match dict_get t required_args with
                  | Some required =>
                      match check_required t required a with
                      | Some m => inl m
                      | None => inr a
                      end
                  | None => inr a
                  end = (inr a : string + gmap string value)).
  { destruct (dict_get t required_args) as [required|] eqn:Hr; [|reflexivity].
    now rewrite (check_required_present t required a (Hreq required Hr)). }
  rewrite Hargs.
  destruct r as [r|]; cbn [fmap option_fmap option_map]; rewrite ?str_validator_str.
  all: destruct c as [q|]; cbn [fmap option_fmap option_map];
    rewrite ?float_validator_float.
  all: try (destruct (Hrange q eq_refl) as [Hlo Hhi];
            apply Qle_bool_iff in Hlo, Hhi; rewrite Hlo, Hhi; cbn [negb]).
  all: destruct n as [k|]; cbn [fmap option_fmap option_map default];
    rewrite ?int_validator_int.
  all: try (pose proof (Hnonneg k eq_refl) as Hk; apply Z.leb_le in Hk; rewrite Hk).
  all: destruct h as [b|]; cbn [fmap option_fmap option_map default];
    rewrite ?bool_validator_bool; reflexivity.
Qed.

Lemma validate_steps_inr (plan : list (gmap string value)) :
  forall validated,
    validate_steps plan = inr validated
    <-> Forall2 (fun raw step => PlanStep_init raw = inr step) plan validated.
Proof.
  induction plan as [|raw rest IH]; intros validated; cbn.
  - split; [intros [= <-]; constructor|].
    intros H. now apply Forall2_nil_inv_l in H as ->.
  - destruct (PlanStep_init raw) as [e|step] eqn:Hraw.
    + split; [discriminate|]. intros H.
      apply Forall2_cons_inv_l in H as (? & ? & ? & _). congruence.
    + destruct (validate_steps rest) as [e|steps].
      * split; [discriminate|]. intros H.
        apply Forall2_cons_inv_l in H as (st & l & _ & Hrest & _).
        apply (IH l) in Hrest. discriminate.
      * split.
        -- intros [= <-]. constructor; [exact Hraw|]. now apply IH.
        -- intros H. apply Forall2_cons_inv_l in H as (st & l & Hst & Hrest & ->).
           apply (IH l) in Hrest. congruence.
Qed.

Lemma validate_steps_inl (plan : list (gmap string value)) :
  forall errs,
    validate_steps plan = inl errs
    <-> exists before raw after,
          plan = (before ++ raw :: after)%list
          /\ Forall (fun raw => exists step, PlanStep_init raw = inr step) before
          /\ PlanStep_init raw = inl errs.
Proof.
  induction plan as [|raw rest IH]; intros errs; cbn.
  - split; [discriminate|]. intros (before & x & after & Heq & _). now destruct before.
  - assert (Hback : forall before x after,
               raw :: rest = (before ++ x :: after)%list ->
               Forall (fun raw => exists step, PlanStep_init raw = inr step) before ->
               PlanStep_init x = inl errs ->
               (before = [] /\ PlanStep_init raw = inl errs)
               \/ ((exists step, PlanStep_init raw = inr step)
                   /\ validate_steps rest = inl errs)).
    { intros before x after Heq Hbefore Hx. destruct before as [|b before]; cbn in Heq.
      - injection Heq as Hb Hr. subst x. now left.
      - injection Heq as Hb Hr. subst b. apply Forall_cons in Hbefore as [Hraw Hbefore].
        right. split; [exact Hraw|]. apply IH. now exists before, x, after. }
    destruct (PlanStep_init raw) as [e|step] eqn:Hraw.
    + split.
      * intros [= <-]. exists [], raw, rest. now repeat split.
      * intros (before & x & after & Heq & Hbefore & Hx).
        destruct (Hback before x after Heq Hbefore Hx) as [[_ H]|[[st H] _]]; congruence.
    + destruct (validate_steps rest) as [e|steps].
      * split.
        -- intros [= <-]. destruct (proj1 (IH e) eq_refl) as (before & x & after & -> & Hb & Hx).
           exists (raw :: before), x, after. split; [reflexivity|].
           split; [|exact Hx]. constructor; [now exists step|exact Hb].
        -- intros (before & x & after & Heq & Hbefore & Hx).
           destruct (Hback before x after Heq Hbefore Hx) as [[_ H]|[_ H]]; congruence.
      * split; [discriminate|].
        intros (before & x & after & Heq & Hbefore & Hx).
        destruct (Hback before x after Heq Hbefore Hx) as [[_ H]|[_ H]]; congruence.
Qed.

(** X12.  A plan validates exactly when each of its raw steps does, and
    then the validated steps are those of the raw steps, one for one
    and in order; otherwise the errors reported are those of the first
    raw step that does not validate. *)
Theorem validate_steps_stepwise (plan : list (gmap string value)) :
  (forall validated,
      validate_steps plan = inr validated
      <-> Forall2 (fun raw step => PlanStep_init raw = inr step) plan validated)
  /\ (forall errs,
         validate_steps plan = inl errs
         <-> exists before raw after,
               plan = (before ++ raw :: after)%list
               /\ Forall (fun raw => exists step, PlanStep_init raw = inr step) before
               /\ PlanStep_init raw = inl errs).
Proof. split; [apply validate_steps_inr|apply validate_steps_inl]. Qed.
End AcceptanceFacts.

(** *** The registry *)

Section RegistryFacts.
Context {W : Type}.

Lemma dict_get_set_eq {V : Type} k (v : V) d : dict_get k (dict_set k v d) = Some v.
Proof.
  induction d as [|[k' v'] d IH]; cbn.
  - now rewrite String.eqb_refl.
  - destruct (String.eqb k k') eqn:Hk; cbn; [now rewrite String.eqb_refl|].
    now rewrite Hk.
Qed.

Lemma dict_get_set_ne {V : Type} k k0 (v : V) d :
  k0 <> k -> dict_get k0 (dict_set k v d) = dict_get k0 d.
Proof.
  intros Hne. induction d as [|[k' v'] d IH]; cbn.
  - now destruct (String.eqb_spec k0 k).
  - destruct (String.eqb_spec k k') as [->|Hk]; cbn.
    + now destruct (String.eqb_spec k0 k').
    + destruct (String.eqb k0 k'); [reflexivity|exact IH].
Qed.

Lemma dict_keys_set {V : Type} k (v : V) d :
  dict_keys (dict_set k v d)
  = if bool_decide (k ∈ dict_keys d) then dict_keys d else (dict_keys d ++ [k])%list.
Proof.
  unfold dict_keys. induction d as [|[k' v'] d IH]; cbn.
  - rewrite bool_decide_eq_false_2; [reflexivity|apply not_elem_of_nil].
  - destruct (String.eqb_spec k k') as [->|Hk]; cbn.
    + rewrite bool_decide_eq_true_2; [reflexivity|left].
    + rewrite IH. destruct (bool_decide (k ∈ map fst d)) eqn:Hin.
      * apply bool_decide_eq_true_1 in Hin.
        rewrite bool_decide_eq_true_2; [reflexivity|now right].
      * apply bool_decide_eq_false_1 in Hin.
        rewrite bool_decide_eq_false_2; [reflexivity|].
        intros H. apply elem_of_cons in H as [H|H]; [contradiction|contradiction].
Qed.

(** X13.  After [register name func], [get_tool name] returns [func];
    every other name resolves as before; and [list_tools] keeps its
    order, with [name] at the end when it is new and in its old place
    when it was registered before. *)
Theorem register_then_get_tool name (func : tool_func W) descr (reg : ToolRegistry W) :
  get_tool name (register name func descr reg) = inr func
  /\ (forall other g, other <> name ->
        (get_tool other (register name func descr reg) = inr g
         <-> get_tool other reg = inr g))
  /\ list_tools (register name func descr reg)
     = if bool_decide (name ∈ list_tools reg) then list_tools reg
       else (list_tools reg ++ [name])%list.
Proof.
  unfold register, get_tool, list_tools. split; [|split].
  - now rewrite dict_get_set_eq.
  - intros other g Hne. rewrite dict_get_set_ne by exact Hne.
    destruct (dict_get other reg); [reflexivity|]. split; discriminate.
  - apply dict_keys_set.
Qed.

End RegistryFacts.

(** *** Runner selection and the entry point *)

Section SelectionFacts.
Context {W : Type} {pyd : Pydantic}.
Variable registry : ToolRegistry W.
Variable ext : Executor.Externals W.

(** X15.  [get_runner] builds a runner at most once and then hands out
    the same kind again without changing anything: the native runner
    when the agent backend is not asked for or cannot be imported, the
    agent runner when it is asked for and was built or can be built. *)
Theorem get_runner_caches (s : State W) :
  (native_backend ext s ->
   exists s1,
     Executor.get_runner ext s = (inr Executor.Native, s1)
     /\ custom_runner_built s1 = true
     /\ langchain_runner_built s1 = langchain_runner_built s
     /\ Executor.get_runner ext s1 = (inr Executor.Native, s1))
  /\ (Executor.langchain_enabled ext = true ->
      langchain_runner_built s = true \/ Executor.LangChainRunner_init ext = None ->
      exists s1,
        Executor.get_runner ext s = (inr Executor.Agent, s1)
        /\ langchain_runner_built s1 = true
        /\ custom_runner_built s1 = custom_runner_built s
        /\ Executor.get_runner ext s1 = (inr Executor.Agent, s1)).
Proof.
  unfold Executor.get_runner, Executor.get_custom_runner. split.
  - intros [Hoff|(Hon & Hbuilt & m & Hinit)].
    + rewrite Hoff. destruct (custom_runner_built s) eqn:Hc.
      * exists s. now rewrite Hc.
      * exists (set_custom_runner_built s). now repeat split.
    + rewrite Hon. destruct (custom_runner_built s) eqn:Hc.
      * exists s. cbv beta. rewrite Hbuilt, Hinit, Hc. now repeat split.
      * exists (set_custom_runner_built s). cbv beta.
        cbn [langchain_runner_built custom_runner_built set_custom_runner_built].
        rewrite ?Hbuilt, ?Hinit, ?Hc. now repeat split.
  - intros Hon Hcan. rewrite Hon.
    destruct (langchain_runner_built s) eqn:Hb.
    + exists s. cbv beta. rewrite Hb. now repeat split.
    + destruct Hcan as [Hcan|Hinit]; [discriminate|].
      exists (set_langchain_runner_built s). cbv beta.
      cbn [langchain_runner_built custom_runner_built set_langchain_runner_built].
      rewrite ?Hb, ?Hinit. now repeat split.
Qed.

Lemma task_id_drawn tid (s : State W) :
  exists s0,
    (match tid with
     | Some t => ret t
     | None => fun s : State W =>
                 let '(h, w') := Executor.uuid4_hex8 ext (world s) in
                 (inr ("task_" ++ h), set_world w' s)
     end) s
    = (inr (match tid with
            | Some t => t
            | None => "task_" ++ fst (Executor.uuid4_hex8 ext (world s))
            end), s0)
    /\ calls s0 = calls s /\ updates s0 = updates s /\ saved s0 = saved s
    /\ custom_runner_built s0 = custom_runner_built s
    /\ langchain_runner_built s0 = langchain_runner_built s.
Proof.
  destruct tid as [t|]; [now exists s|].
  destruct (Executor.uuid4_hex8 ext (world s)) as [h w']. now eexists.
Qed.

Lemma get_runner_native_state (s : State W) :
  native_backend ext s ->
  exists s1,
    Executor.get_runner ext s = (inr Executor.Native, s1)
    /\ calls s1 = calls s /\ updates s1 = updates s /\ saved s1 = saved s.
Proof.
  unfold Executor.get_runner, Executor.get_custom_runner.
  intros [Hoff|(Hon & Hbuilt & m & Hinit)].
  - rewrite Hoff. destruct (custom_runner_built s); now eexists.
  - rewrite Hon, Hbuilt, Hinit. destruct (custom_runner_built s); now eexists.
Qed.

Lemma save_or_not_state (save_results : bool) (r : ExecutionResult) (s : State W) :
  exists s',
    (if save_results
     then try_except (Executor.save_execution_result ext r) (fun _ => ret tt)
     else ret tt) s = (inr tt, s')
    /\ calls s' = calls s /\ updates s' = updates s
    /\ (saved s' = saved s \/ save_results = true /\ saved s' = (saved s ++ [r])%list).
Proof.
  destruct save_results; [|exists s; now repeat split; try left].
  unfold try_except, Executor.save_execution_result.
  destruct (Executor.write_json ext r (world s)) as [[e|] w']; eexists;
    (split; [reflexivity|]); cbn; repeat split; auto.
Qed.


(** X17.  Whether the result is saved has no bearing on what the entry
    point returns or raises: with and without [save_results] the
    outcome is the same, also when writing the file fails. *)
Theorem saving_never_changes_the_outcome plan sid tid on_update (s : State W) :
  fst (Executor.execute_plan registry ext plan sid tid on_update true s)
  = fst (Executor.execute_plan registry ext plan sid tid on_update false s).
Proof.
  unfold Executor.execute_plan. destruct plan as [|raw rest]; [reflexivity|].
  unfold bind at 1 5.
  destruct (task_id_drawn tid s) as (s0 & -> & _).
  unfold bind at 1 4.
  destruct (Executor.get_runner ext s0) as [[e|kind] s1]; [reflexivity|].
  unfold bind at 1 3.
  assert (Hsave : forall r (s2 : State W),
             fst (bind (try_except (Executor.save_execution_result ext r) (fun _ => ret tt))
                    (fun _ => ret r) s2)
             = fst (bind (ret tt) (fun _ => ret r) s2)).
  { intros r s2. unfold bind.
    destruct (save_or_not_state true r s2) as (s3 & Hs3 & _). cbn in Hs3.
    now rewrite Hs3. }
  destruct kind.
  - match goal with
    | |- context [CustomRunner.execute_plan ?a ?b ?c ?d ?e ?f ?g] =>
        destruct (CustomRunner.execute_plan a b c d e f g) as [[e0|r] s2]
    end; [reflexivity|apply Hsave].
  - match goal with
    | |- context [Executor.LangChainRunner_execute_plan ?a ?b ?c ?d ?e ?f] =>
        destruct (Executor.LangChainRunner_execute_plan a b c d e f) as [[e0|r] s2]
    end; [reflexivity|apply Hsave].
Qed.

(** X18.  When the agent backend is asked for and its constructor
    raises anything but [ImportError], the entry point raises that
    exception: there is no fallback, no tool is invoked, nothing is
    reported and nothing is saved. *)
Theorem backend_failure_propagates raw rest sid tid on_update save_results e (s : State W) :
  Executor.langchain_enabled ext = true ->
  langchain_runner_built s = false ->
  Executor.LangChainRunner_init ext = Some e ->
  (forall m, e <> ImportError m) ->
  exists s',
    Executor.execute_plan registry ext (raw :: rest) sid tid on_update save_results s
    = (inl e, s')
    /\ calls s' = calls s /\ updates s' = updates s /\ saved s' = saved s.
Proof.
  intros Hon Hbuilt Hinit Hother. unfold Executor.execute_plan. unfold bind at 1.
  destruct (task_id_drawn tid s) as (s0 & -> & Hc0 & Hu0 & Hs0 & Hcb0 & Hlb0).
  unfold bind at 1. unfold Executor.get_runner. rewrite Hon, Hlb0, Hbuilt, Hinit.
  destruct e; try (now exists s0). now destruct (Hother m).
Qed.
End SelectionFacts.

(** *** The agent runner *)

Section AgentFacts.
Context {W : Type} {pyd : Pydantic}.
Variable agent : LangChainRunner.Agent W.

Lemma agent_run_step_eq on_update validated step result (s : State W) :
  LangChainRunner.run_step agent on_update validated step result s =
  match LangChainRunner.invoke agent step validated (world s) with
  | (inr x, w') =>
      (inr (Continue
              (append_step
                 (step_mark_finished ok (agent_output x) None (fresh_step_result step))
                 result) []),
       notified on_update (step_id step) ok (agent_output x)
         (set_world w' (notified on_update (step_id step) running VNone s)))
  | (inl e, w') =>
      (inr (Return (agent_stopped step result e)),
       set_world w' (notified on_update (step_id step) running VNone s))
  end.
Proof.
  unfold LangChainRunner.run_step, bind at 1, try_except. rewrite notify_eq.
  unfold bind at 1, LangChainRunner.invoke_agent. rewrite world_notified.
  destruct (LangChainRunner.invoke agent step validated (world s)) as [[e|x] w'].
  - unfold agent_stopped. destruct (needs_human step); cbn [ret];
      now rewrite with_step_result_append.
  - unfold bind. rewrite notify_eq. now rewrite with_step_result_append.
Qed.

Lemma agent_stopped_steps step result e :
  exists sr,
    steps (agent_stopped step result e) = (steps result ++ [sr])%list
    /\ sr_step_id sr = step_id step /\ retry_count sr = 0
    /\ (sr_status sr = error \/ sr_status sr = paused)
    /\ status (agent_stopped step result e) = sr_status sr
    /\ finished (agent_stopped step result e) = true
    /\ populated (sr_error_message sr)
    /\ populated (error_message (agent_stopped step result e)).
Proof.
  unfold agent_stopped. destruct (needs_human step); eexists;
    (split; [reflexivity|]); cbn; repeat split; auto;
    eexists; (split; [reflexivity|discriminate]).
Qed.

Lemma agent_run_steps_post on_update validated remaining :
  forall result (s : State W),
    all_ok (steps result) ->
    exists r s' new,
      LangChainRunner.run_steps agent on_update validated remaining result s = (inr r, s')
      /\ steps r = (steps result ++ new)%list
      /\ run_shape r /\ finished r = true
      /\ Forall (fun sr => retry_count sr = 0) new
      /\ slept s' = slept s /\ calls s' = calls s
      /\ map update_outline (updates s')
         = (map update_outline (updates s)
              ++ if on_update then agent_updates new else [])%list.
Proof.
  induction remaining as [|step rest IH]; intros result s Hok.
  - exists (mark_finished ok None result), s, []. cbn. rewrite !app_nil_r.
    split; [reflexivity|]. split; [reflexivity|]. split; [now apply shape_ok|].
    split; [reflexivity|]. split; [constructor|]. split; [reflexivity|].
    split; [reflexivity|]. destruct on_update; now rewrite app_nil_r.
  - cbn [LangChainRunner.run_steps]. unfold bind. rewrite agent_run_step_eq.
    destruct (LangChainRunner.invoke agent step validated (world s)) as [[e|x] w'].
    + destruct (agent_stopped_steps step result e)
        as (sr & Hsteps & Hid & Hrc & Hbad & Hst & Hfin & Hsrmsg & Hmsg).
      do 2 eexists. exists [sr].
      split; [reflexivity|]. split; [exact Hsteps|].
      split; [now apply shape_stopped with (pre := steps result) (sr := sr)|].
      split; [exact Hfin|]. split; [now constructor|]. cbn [slept calls updates set_world].
      rewrite slept_notified, calls_notified, updates_notified.
      split; [reflexivity|]. split; [reflexivity|].
      destruct on_update; [|reflexivity]. cbn.
      rewrite bool_decide_eq_false_2 by (destruct Hbad as [-> | ->]; discriminate).
      now rewrite Hid.
    + match goal with
      | |- context [LangChainRunner.run_steps agent on_update validated rest ?r1 ?s1] =>
          destruct (IH r1 s1) as (r & s' & new & -> & Hsteps & Hshape & Hfin & Hrc & Hsl
                                  & Hca & Hup)
      end.
      { cbn. apply Forall_app. split; [exact Hok|]. now constructor. }
      exists r, s', (step_mark_finished ok (agent_output x) None (fresh_step_result step)
                       :: new).
      split; [reflexivity|]. split; [now rewrite Hsteps; cbn; rewrite <- app_assoc|].
      split; [exact Hshape|]. split; [exact Hfin|]. split; [now constructor|].
      rewrite Hsl, Hca, Hup, slept_notified, calls_notified, updates_notified.
      cbn [slept calls updates set_world].
      rewrite slept_notified, calls_notified, updates_notified.
      split; [reflexivity|]. split; [reflexivity|].
      destruct on_update; [|now rewrite !app_nil_r]. cbn. now rewrite <- !app_assoc.
Qed.


(** X20.  With a callback, the agent runner reports ['running'] for
    each step it starts and ['ok'] for each step that ends so; the step
    that stops a run is not reported again, so the callback never sees
    an ['error'] or a ['paused'] from this runner.  No tool call is made
    by the runner itself. *)
Theorem agent_progress_reports plan tid sid on_update (s : State W) :
  LangChainRunner.from_template agent = None ->
  exists r s',
    LangChainRunner.execute_plan agent plan tid sid on_update s = (inr r, s')
    /\ map update_outline (updates s')
       = (map update_outline (updates s)
            ++ if on_update then agent_updates (steps r) else [])%list
    /\ calls s' = calls s.
Proof.
  unfold LangChainRunner.execute_plan. intros ->.
  destruct (validate_steps plan) as [errs|validated].
  - do 2 eexists. split; [reflexivity|]. cbn. split; [|reflexivity].
    destruct on_update; now rewrite app_nil_r.
  - unfold try_except.
    destruct (LangChainRunner.create_agent_executor agent validated) as [e|].
    + do 2 eexists. split; [reflexivity|]. cbn. split; [|reflexivity].
      destruct on_update; now rewrite app_nil_r.
    + destruct (agent_run_steps_post on_update validated validated
                  (ExecutionResult_init tid running sid) s)
        as (r & s' & new & -> & Hsteps & _ & _ & _ & _ & Hca & Hup); [constructor|].
      cbn in Hsteps. subst new. now exists r, s'.
Qed.
End AgentFacts.

(** *** The history of runs *)

Section HistoryFacts.
Import Executor.

Lemma insert_by_mtime_perm x l : Permutation (insert_by_mtime x l) (x :: l).
Proof.
  induction l as [|y l IH]; cbn; [reflexivity|].
  destruct (Qle_bool (snd y) (snd x)); [reflexivity|].
  rewrite IH. apply perm_swap.
Qed.

Lemma sort_newest_first_perm l : Permutation (sort_newest_first l) l.
Proof.
  induction l as [|x l IH]; cbn; [reflexivity|].
  rewrite insert_by_mtime_perm. now constructor.
Qed.

Lemma insert_by_mtime_sorted x l :
  StronglySorted by_mtime l -> StronglySorted by_mtime (insert_by_mtime x l).
Proof.
  induction 1 as [|y l Hl IH Hy]; cbn; [repeat constructor|].
  destruct (Qle_bool (snd y) (snd x)) eqn:Hle.
  - apply Qle_bool_iff in Hle. constructor; [now constructor|].
    constructor; [exact Hle|].
    eapply Forall_impl; [exact Hy|]. intros z Hz. unfold by_mtime in *.
    now apply Qle_trans with (snd y).
  - assert (Hlt : (snd x <= snd y)%Q).
    { apply Qlt_le_weak, Qnot_le_lt. intros H. apply Qle_bool_iff in H. congruence. }
    constructor; [exact IH|].
    rewrite (Forall_forall (by_mtime y)). intros z Hz.
    rewrite insert_by_mtime_perm in Hz. apply elem_of_cons in Hz as [->|Hz]; [exact Hlt|].
    rewrite Forall_forall in Hy. now apply Hy.
Qed.

Lemma sort_newest_first_sorted l : StronglySorted by_mtime (sort_newest_first l).
Proof.
  induction l as [|x l IH]; cbn; [constructor|]. now apply insert_by_mtime_sorted.
Qed.

Lemma slice_to_take {A : Type} limit (l : list A) :
  exists k, slice_to limit l = take k l /\ (0 <= limit -> k = Z.to_nat limit).
Proof.
  unfold slice_to. destruct (Z.leb_spec 0 limit); eexists; (split; [reflexivity|]); lia.
Qed.

Lemma StronglySorted_take_drop {A : Type} (R : A -> A -> Prop) k l :
  StronglySorted R l ->
  StronglySorted R (take k l)
  /\ forall a b, a ∈ take k l -> b ∈ drop k l -> R a b.
Proof.
  intros Hl. revert k. induction Hl as [|x l Hl IH Hx]; intros k.
  - rewrite take_nil, drop_nil. split; [constructor|].
    intros a b Ha. now apply elem_of_nil in Ha.
  - destruct k as [|k]; cbn.
    + split; [constructor|]. intros a b Ha. now apply elem_of_nil in Ha.
    + destruct (IH k) as [Hsorted Hcross]. split.
      * constructor; [exact Hsorted|]. now apply Forall_take.
      * intros a b Ha Hb. apply elem_of_cons in Ha as [->|Ha]; [|now apply Hcross].
        apply (Forall_drop _ k) in Hx. rewrite Forall_forall in Hx. now apply Hx.
Qed.

Lemma sorted_paths (m : string -> Q) l :
  StronglySorted by_mtime l -> Forall (fun x => snd x = m (fst x)) l ->
  newest_first m (map fst l).
Proof.
  unfold newest_first. induction 1 as [|x l Hl IH Hx]; intros Hm; cbn; [constructor|].
  apply Forall_cons in Hm as [Hmx Hm]. constructor; [now apply IH|].
  apply Forall_map. rewrite Forall_forall in Hx, Hm. apply Forall_forall.
  intros y Hy. cbn. specialize (Hx y Hy). unfold by_mtime in Hx.
  now rewrite <- Hmx, <- (Hm y Hy).
Qed.

(** X21.  [get_execution_history] lists result files newest first.  It
    returns nothing when the output directory does not exist; at most
    [limit] paths when [limit] is not negative; only paths of names of
    the directory that end in [.json]; the paths come with modification
    times that do not grow along the list; and a result file that is
    left out is no newer than any that is returned. *)
Theorem execution_history_newest_first (fs : OutputDir) (limit : Z) :
  (dir_exists fs = false -> get_execution_history fs limit = [])
  /\ (0 <= limit -> (length (get_execution_history fs limit) <= Z.to_nat limit)%nat)
  /\ Forall (fun p => exists name, result_file fs name /\ p = history_path fs name)
       (get_execution_history fs limit)
  /\ newest_first (getmtime fs) (get_execution_history fs limit)
  /\ (dir_exists fs = true ->
      forall name,
        result_file fs name ->
        history_path fs name ∉ get_execution_history fs limit ->
        forall p, p ∈ get_execution_history fs limit ->
                  (getmtime fs (history_path fs name) <= getmtime fs p)%Q).
Proof.
  unfold get_execution_history.
  set (files := map (fun filename =>
                       (path_join fs (output_dir fs) filename,
                        getmtime fs (path_join fs (output_dir fs) filename)))
                  (filter (fun filename => endswith filename ".json" = true) (listdir fs))).
  destruct (slice_to_take limit (sort_newest_first files)) as (k & -> & Hk).
  assert (Hfiles : Forall (fun x => snd x = getmtime fs (fst x)
                                    /\ exists name, result_file fs name
                                                    /\ fst x = history_path fs name)
                     (sort_newest_first files)).
  { rewrite (sort_newest_first_perm files). unfold files. apply Forall_map.
    apply Forall_forall. intros name Hname.
    apply list_elem_of_filter in Hname as [Hjson Hin]. cbn.
    split; [reflexivity|]. exists name. now repeat split. }
  destruct (StronglySorted_take_drop by_mtime k _ (sort_newest_first_sorted files))
    as [Hsorted Hcross].
  split; [now intros ->|].
  destruct (dir_exists fs); cbn [negb].
  2: { split; [cbn; lia|]. split; [constructor|]. split; [constructor|discriminate]. }
  split.
  { intros Hlimit. rewrite length_map, length_take, (Hk Hlimit). lia. }
  split.
  { apply Forall_map. apply (Forall_take _ k) in Hfiles.
    eapply Forall_impl; [exact Hfiles|]. intros x (_ & name & Hname & Hx).
    now exists name. }
  split.
  { apply sorted_paths; [exact Hsorted|]. apply (Forall_take _ k) in Hfiles.
    eapply Forall_impl; [exact Hfiles|]. now intros x [Hx _]. }
  intros _ name [Hin Hjson] Hout p Hp.
  apply list_elem_of_fmap in Hp as (y & -> & Hy).
  assert (Hx : (history_path fs name, getmtime fs (history_path fs name))
               ∈ drop k (sort_newest_first files)).
  { assert (Hall : (history_path fs name, getmtime fs (history_path fs name))
                   ∈ sort_newest_first files).
    { rewrite (sort_newest_first_perm files). unfold files.
      apply list_elem_of_fmap. exists name. split; [reflexivity|].
      apply list_elem_of_filter. now split. }
    rewrite <- (take_drop k (sort_newest_first files)) in Hall.
    apply elem_of_app in Hall as [Htake|Hdrop]; [|exact Hdrop].
    exfalso. apply Hout. apply list_elem_of_fmap. eexists. split; [|exact Htake].
    reflexivity. }
  specialize (Hcross y _ Hy Hx). unfold by_mtime in Hcross. cbn in Hcross.
  apply (Forall_take _ k) in Hfiles. rewrite Forall_forall in Hfiles.
  destruct (Hfiles y Hy) as [Hm _].
  now rewrite <- Hm.
Qed.
End HistoryFacts.

(** *** Plans the repository builds itself *)

Section BuiltPlans.
Context {W : Type} {pyd : Pydantic}.

Lemma raw_plan_step_validates id t a r c :
  t ∈ TOOL_NAMES -> has_required_args t a -> (0 <= c <= 1)%Q ->
  PlanStep_init (raw_plan_step id t a r c)
  = inr {| step_id := id; tool := t; args := a; reason := Some r; confidence := Some c;
           retry := Some 0; requires_human := Some false |}.
Proof.
  intros Ht Ha Hc.
  apply (typed_step_validates _ id t a (Some r) (Some c) None None);
    try reflexivity; try assumption.
  - now intros q [= <-].
  - discriminate.
Qed.

Lemma confidence_0_8_in_range : (0 <= Executor.confidence_0_8 <= 1)%Q.
Proof. split; unfold Qle; cbn; lia. Qed.

Lemma search_args_suffice q :
  has_required_args "search" ({[ "query" := VStr q ]} : gmap string value).
Proof.
  intros required [= <-]. constructor; [|constructor]. now rewrite lookup_singleton_eq.
Qed.

Lemma open_args_suffice u :
  has_required_args "open" ({[ "url" := VStr u ]} : gmap string value).
Proof.
  intros required [= <-]. constructor; [|constructor]. now rewrite lookup_singleton_eq.
Qed.

Lemma first_url_http words : String.prefix "http" (Executor.first_url words "https://example.com") = true.
Proof.
  unfold Executor.first_url.
  destruct (List.find (String.prefix "http") words) as [w|] eqn:Hw; [|reflexivity].
  now apply List.find_some in Hw as [_ Hw].
Qed.

Section SimplePlans.
Context {ops : Executor.StrOps}.

Lemma simple_step_validates i instruction :
  exists st,
    PlanStep_init (Executor.simple_step i instruction) = inr st
    /\ step_id st = i /\ simple_step_shape instruction st.
Proof.
  unfold Executor.simple_step.
  destruct (Executor.contains "search" (Executor.lower instruction)).
  - eexists. split.
    + apply raw_plan_step_validates;
        [apply (bool_decide_unpack _); vm_compute; exact I|apply search_args_suffice
        |apply confidence_0_8_in_range].
    + split; [reflexivity|]. repeat split. left. split; [reflexivity|]. now eexists.
  - destruct (Executor.contains "open" (Executor.lower instruction)).
    + eexists. split.
      * apply raw_plan_step_validates;
          [apply (bool_decide_unpack _); vm_compute; exact I|apply open_args_suffice
          |apply confidence_0_8_in_range].
      * split; [reflexivity|]. repeat split. right. split; [reflexivity|].
        eexists. split; [reflexivity|apply first_url_http].
    + eexists. split.
      * apply raw_plan_step_validates;
          [apply (bool_decide_unpack _); vm_compute; exact I|apply search_args_suffice
          |apply confidence_0_8_in_range].
      * split; [reflexivity|]. repeat split. left. split; [reflexivity|]. now eexists.
Qed.

Lemma simple_plan_from_valid instructions :
  forall i,
  exists validated,
    validate_steps (Executor.simple_plan_from i instructions) = inr validated
    /\ map step_id validated = seqZ i (Z.of_nat (length instructions))
    /\ Forall2 simple_step_shape instructions validated.
Proof.
  induction instructions as [|instruction rest IH]; intros i.
  - exists []. now repeat split; try constructor.
  - cbn [Executor.simple_plan_from validate_steps].
    destruct (simple_step_validates i instruction) as (st & -> & Hid & Hshape).
    destruct (IH (i + 1)) as (validated & -> & Hids & Hshapes).
    exists (st :: validated). split; [reflexivity|]. split.
    + cbn [map length]. rewrite seqZ_cons by lia. rewrite Hid, Hids.
      do 2 f_equal; lia.
    + now constructor.
Qed.

Variable registry : ToolRegistry W.
Variable ext : Executor.Externals W.

(** X22.  The plan [execute_simple_plan] builds from a list of
    instructions always validates: it has one step for each
    instruction, numbered from 1 in order, each a [search] with a query
    or an [open] with a URL that starts with [http], with the
    instruction as its reason and no retry budget, however the string
    methods used to pick the tool behave.  With no instruction at all
    the call raises the [ValueError] of the empty plan. *)
Theorem simple_plan_is_valid instructions sid (s : State W) :
  (exists validated,
      validate_steps (Executor.simple_plan_from 1 instructions) = inr validated
      /\ map step_id validated = seqZ 1 (Z.of_nat (length instructions))
      /\ Forall2 simple_step_shape instructions validated)
  /\ (instructions = [] ->
      Executor.execute_simple_plan registry ext instructions sid s
      = (inl (ValueError "Plan cannot be empty"), s)).
Proof.
  split; [apply simple_plan_from_valid|]. now intros ->.
Qed.
End SimplePlans.

Ltac step_side :=
  first
    [ apply (bool_decide_unpack _); vm_compute; exact I
    | split; unfold Qle; cbn; lia
    | let required := fresh in
      let H := fresh in
      intros required H; vm_compute in H; injection H as <-;
      repeat (constructor; [eexists; reflexivity|]); constructor ].

(** X23.  Every plan [get_sample_plan] returns validates, for a known
    name and for an unknown one, which gets the [simple_test] plan; the
    plan is not empty, its steps are numbered from 1 in order, and none
    has a retry budget or requires a human. *)
Theorem sample_plans_validate name :
  exists validated,
    validate_steps (Prompts.get_sample_plan name) = inr validated
    /\ validated <> []
    /\ map step_id validated = seqZ 1 (Z.of_nat (length validated))
    /\ Forall (fun st => retry st = Some 0 /\ requires_human st = Some false) validated
    /\ (dict_get name Prompts.SAMPLE_PLANS = None ->
        Prompts.get_sample_plan name = Prompts.get_sample_plan "simple_test").
Proof.
  unfold Prompts.get_sample_plan, Prompts.SAMPLE_PLANS. cbn [dict_get].
  repeat (destruct (String.eqb name _));
    cbn [validate_steps String.eqb Ascii.eqb Bool.eqb];
    repeat (rewrite raw_plan_step_validates by step_side);
    (eexists; split; [reflexivity|]; split; [discriminate|]; split; [reflexivity|];
     split; [repeat constructor|]; first [discriminate|reflexivity]).
Qed.
End BuiltPlans.

(** *** The properties on concrete plans *)

Section Concrete.
Import Samples.

Lemma retry_bound_witness :
  exists r' ctx' s' sr,
    run_step (flaky_registry 1) default_config true
      (with_retry (Some 1) (search_step 1 0 false)) blank [] (initial 0%nat)
    = (inr (Continue r' ctx'), s')
    /\ last (steps r') = Some sr
    /\ sr_status sr = ok /\ retry_count sr = 1 /\ sr_output sr = VStr "found".
Proof.
  refine (proj1 (retry_bound (flaky_registry 1) default_config true
                   (search_step 1 0 false) blank [] (initial 0%nat)
                   (entry (flaky 1 (VStr "found"))) 1 (VStr "found")
                   eq_refl (le_n 1) _) eq_refl).
  cbn. do 2 eexists. split; [reflexivity|]. split; [eexists; reflexivity|].
  do 2 eexists. split; reflexivity.
Defined.

(** The tool fails exactly once and then returns; with retry budget
    0 and [requires_human] set the step is ['paused'], not ['error']. *)
Lemma retry_bound_counterexample :
  fails_then_succeeds (flaky 1 (VStr "found"))
    (call_arguments (search_step 1 0 true) []) 60 1 0%nat (VStr "found")
  /\ match run_step (flaky_registry 1) default_config true (search_step 1 0 true)
             blank [] (initial 0%nat) with
     | (inr flow, _) =>
         map sr_status (steps (flow_result flow)) = [paused]
         /\ status (flow_result flow) = paused
     | _ => False
     end.
Proof.
  split.
  - cbn. do 2 eexists. split; [reflexivity|]. split; [eexists; reflexivity|].
    do 2 eexists. split; reflexivity.
  - vm_compute. split; reflexivity.
Qed.

(** With retry budget 2 against a tool that fails twice and then
    returns, the runner stops after its single retry. *)
Lemma two_failures_exhaust_any_budget :
  match run_step (flaky_registry 2) default_config true (search_step 1 2 false)
          blank [] (initial 0%nat) with
  | (inr flow, s') =>
      map sr_status (steps (flow_result flow)) = [error]
      /\ map retry_count (steps (flow_result flow)) = [1]
      /\ length (calls s') = 2%nat
  | _ => False
  end.
Proof. vm_compute. repeat split; reflexivity. Qed.

Lemma invalid_plan_rejected_witness :
  exists r,
    execute_plan (flaky_registry 0) default_config plan_with_unknown_tool
      "task_1" None true (initial 0%nat) = (inr r, initial 0%nat)
    /\ rejected r.
Proof.
  apply (invalid_plan_rejected (flaky_registry 0) default_config plan_with_unknown_tool
           "task_1" None true (initial 0%nat)).
  apply Exists_cons_hd. left. exists (VStr "browse"). split; [reflexivity|].
  intros t Ht.
  repeat (apply elem_of_cons in Ht as [->|Ht]; [discriminate|]).
  now apply elem_of_nil in Ht.
Defined.

(** A plan whose only step has id 2 is not turned away: its step
    runs, the tool is invoked, and the run is ['ok']. *)
Lemma invalid_plan_rejected_counterexample :
  match execute_plan (flaky_registry 0) default_config plan_starting_at_two
          "task_1" None true (initial 0%nat) with
  | (inr r, s') =>
      status r = ok /\ map sr_step_id (steps r) = [2]
      /\ map sr_status (steps r) = [ok] /\ length (calls s') = 1%nat
  | _ => False
  end.
Proof. vm_compute. repeat split; reflexivity. Qed.



Lemma confidence_out_of_range_rejected_witness :
  exists r,
    execute_plan (flaky_registry 0) default_config (plan_with_confidence (3 # 2))
      "task_1" None true (initial 0%nat) = (inr r, initial 0%nat)
    /\ rejected r.
Proof.
  apply (proj1 (confidence_out_of_range_rejected (flaky_registry 0) default_config)).
  apply Exists_cons_hd. exists (VFloat (3 # 2)), (3 # 2)%Q.
  split; [reflexivity|]. split; [discriminate|]. split; [reflexivity|].
  right. reflexivity.
Defined.

(** A step with confidence 1.5 does not validate, and its plan ends
    ['error'] with no step result and no tool call: the value is not
    moved to 1.0 and the step is not accepted. *)
Lemma confidence_out_of_range_rejected_counterexample :
  (exists errs, PlanStep_init (with_key "confidence" (VFloat (3 # 2))
                                 (raw_step 1 "search" [("query", VStr "nexus")]))
                = inl errs)
  /\ match execute_plan (flaky_registry 0) default_config (plan_with_confidence (3 # 2))
             "task_1" None true (initial 0%nat) with
     | (inr r, s') => status r = error /\ steps r = [] /\ calls s' = []
     | _ => False
     end.
Proof.
  split.
  - eexists. vm_compute. reflexivity.
  - vm_compute. repeat split; reflexivity.
Qed.




Lemma ok_run_is_complete_witness :
  exists r s',
    execute_plan (flaky_registry 0) default_config one_search_plan "task_1" None true
      (initial 0%nat) = (inr r, s')
    /\ (status r = ok <-> all_ok (steps r))
    /\ (status r = ok -> map sr_step_id (steps r) = map step_id [one_search_step]).
Proof.
  apply (ok_run_is_complete (flaky_registry 0) default_config one_search_plan
           [one_search_step] "task_1" None true (initial 0%nat)).
  reflexivity.
Defined.

Lemma tool_calls_accounted_witness :
  exists r s',
    execute_plan (flaky_registry 1) default_config one_search_plan "task_1" None true
      (initial 0%nat) = (inr r, s')
    /\ Z.of_nat (length (calls s'))
       = Z.of_nat (length (calls (initial 0%nat))) + Z.of_nat (length (steps r))
         + total_retries (steps r).
Proof.
  destruct (tool_calls_accounted (flaky_registry 1) default_config one_search_plan
              "task_1" None true (initial 0%nat)) as (r & s' & Hrun & _ & Heq).
  exists r, s'. split; [exact Hrun|].
  apply (Heq [one_search_step]); [reflexivity|].
  constructor; [|constructor]. eexists. reflexivity.
Defined.

Lemma no_budget_no_retry_witness :
  exists r s',
    execute_plan (flaky_registry 1) default_config one_search_plan "task_1" None true
      (initial 0%nat) = (inr r, s')
    /\ Forall (fun sr => retry_count sr = 0) (steps r)
    /\ slept s' = slept (initial 0%nat)
    /\ (length (calls s') <= length (calls (initial 0%nat)) + length (steps r))%nat.
Proof.
  apply (no_budget_no_retry (flaky_registry 1) default_config one_search_plan
           [one_search_step] "task_1" None true (initial 0%nat)).
  - reflexivity.
  - constructor; [|constructor]. cbn. lia.
Defined.

Lemma declared_arguments_pass_unchanged_witness :
  exists x s',
    _execute_step (flaky_registry 0) default_config (search_step 1 0 false)
      [("step_9_output", VStr "<html></html>")] (initial 0%nat) = (x, s')
    /\ calls s' = (calls (initial 0%nat)
                     ++ [ {| call_tool := "search";
                             call_args := args (search_step 1 0 false) |} ])%list.
Proof.
  apply (declared_arguments_pass_unchanged (flaky_registry 0) default_config
           (search_step 1 0 false) [("step_9_output", VStr "<html></html>")]
           (initial 0%nat)).
  - eexists. reflexivity.
  - left. discriminate.
Defined.

Lemma step_outputs_lookup_witness :
  get_step_outputs mixed_result !! sr_step_id fetched_step_result
  = Some (sr_output fetched_step_result).
Proof.
  apply (proj2 (step_outputs_lookup mixed_result)).
  - cbn. repeat constructor.
    + intros H. apply elem_of_cons in H as [H|H]; [discriminate|].
      now apply elem_of_nil in H.
    + intros H. now apply elem_of_nil in H.
  - left.
  - reflexivity.
  - discriminate.
Defined.

Lemma extra_keys_ignored_witness :
  PlanStep_init (<["note" := VStr "from the planner"]>
                   (raw_step 1 "search" [("query", VStr "nexus")]))
  = PlanStep_init (raw_step 1 "search" [("query", VStr "nexus")]).
Proof.
  apply extra_keys_ignored. unfold FIELD_NAMES. intros H.
  repeat (apply elem_of_cons in H as [H|H]; [discriminate|]).
  now apply elem_of_nil in H.
Defined.

Lemma validated_step_is_well_formed_witness :
  tool one_search_step ∈ TOOL_NAMES
  /\ has_required_args (tool one_search_step) (args one_search_step)
  /\ (forall n, retry one_search_step = Some n -> 0 <= n)
  /\ (forall q, confidence one_search_step = Some q -> (0 <= q <= 1)%Q).
Proof.
  apply (validated_step_is_well_formed (raw_step 1 "search" [("query", VStr "nexus")])
           one_search_step).
  reflexivity.
Defined.

Lemma typed_step_validates_witness :
  PlanStep_init (with_key "retry" (VInt 2)
                   (raw_step 1 "search" [("query", VStr "nexus")]))
  = inr {| step_id := 1; tool := "search";
           args := list_to_map [("query", VStr "nexus")];
           reason := None; confidence := None;
           retry := Some (default 0 (Some 2)); requires_human := Some (default false None) |}.
Proof.
  apply (typed_step_validates
           (with_key "retry" (VInt 2) (raw_step 1 "search" [("query", VStr "nexus")]))
           1 "search" (list_to_map [("query", VStr "nexus")]) None None (Some 2) None);
    try reflexivity.
  - apply (bool_decide_unpack _). vm_compute. exact I.
  - intros required H. vm_compute in H. injection H as <-.
    constructor; [eexists; reflexivity|constructor].
  - discriminate.
  - intros k [= <-]. lia.
Defined.


Lemma backend_failure_propagates_witness :
  exists s',
    Executor.execute_plan (flaky_registry 0) broken_agent_ext
      (raw_step 1 "search" [("query", VStr "nexus")] :: []) None (Some "task_1") false
      true (initial 0%nat)
    = (inl (ValueError "invalid literal for int()"), s')
    /\ calls s' = calls (initial 0%nat) /\ updates s' = updates (initial 0%nat)
    /\ saved s' = saved (initial 0%nat).
Proof.
  apply (backend_failure_propagates (flaky_registry 0) broken_agent_ext
           (raw_step 1 "search" [("query", VStr "nexus")]) [] None (Some "task_1")
           false true (ValueError "invalid literal for int()") (initial 0%nat));
    try reflexivity.
  discriminate.
Defined.

Lemma agent_progress_reports_witness :
  exists r s',
    LangChainRunner.execute_plan echo_agent one_search_plan "task_1" None true
      (initial 0%nat) = (inr r, s')
    /\ map update_outline (updates s')
       = (map update_outline (updates (initial 0%nat)) ++ agent_updates (steps r))%list
    /\ calls s' = calls (initial 0%nat).
Proof.
  apply (agent_progress_reports echo_agent one_search_plan "task_1" None true
           (initial 0%nat)).
  reflexivity.
Defined.
End Concrete.
End Facts.
